(** * memguard: guarded allocator, page arithmetic and locked buffers

    A shallow embedding of [internals.go] (both revisions kept in the
    repository), of [memcall/memcall_unix.go], and of the locked-buffer
    operations exercised by the test-suite.  Part I holds the program,
    Part II what is proved of it.

    Conventions.
    - Go's [int] is a 64-bit two's-complement integer: a [Z] together with
      the wrap-around [wrap_int] applied after every [+], [-] and [*].
    - Go's [uintptr] is a 64-bit unsigned integer: a [Z] reduced modulo
      [2^64] after every operation.
    - A byte is a [Z] in [0, 256).
    - A [[]byte] is a slice header (address, length, capacity); the bytes
      live in the process memory, a component of [world].
    - A Go [panic] is the [Panicked] outcome; code after it does not run. *)

From Stdlib Require Import ZArith Lia Bool String List.
From stdpp Require Import base list.
Import ListNotations.

Local Open Scope Z_scope.

(** * Part I: the program *)

(** ** Machine integers *)

Module GoInt.

Definition int_min : Z := - 2 ^ 63.
Definition int_max : Z := 2 ^ 63 - 1.
Definition in_int (z : Z) : Prop := int_min <= z <= int_max.

(** Reduction of an unbounded integer to the 64-bit signed range. *)
Definition wrap_int (z : Z) : Z := (z + 2 ^ 63) mod 2 ^ 64 - 2 ^ 63.

Definition int_add (a b : Z) : Z := wrap_int (a + b).
Definition int_sub (a b : Z) : Z := wrap_int (a - b).
Definition int_mul (a b : Z) : Z := wrap_int (a * b).
(** [&] and [^] (unary complement) on two's-complement integers; the
    result of either is in range whenever the operands are. *)
Definition int_and (a b : Z) : Z := Z.land a b.
Definition int_not (a : Z) : Z := Z.lnot a.

(** [uintptr]: arithmetic modulo [2^64]. *)
Definition wrap_uintptr (z : Z) : Z := z mod 2 ^ 64.
Definition uintptr_of_int (a : Z) : Z := wrap_uintptr a.
Definition uintptr_sub (a b : Z) : Z := wrap_uintptr (a - b).

End GoInt.
Export GoInt.

(** ** Page arithmetic ([internals.go], [roundToPageSize]) *)

Section PageArith.

(** [pageSize = os.Getpagesize()], read once when the package is
    initialised. *)
Variable pageSize : Z.

(** [(length + (pageSize - 1)) & (^(pageSize - 1))] *)
Definition roundToPageSize (length : Z) : Z :=
  int_and (int_add length (int_sub pageSize 1)) (int_not (int_sub pageSize 1)).

End PageArith.

(** ** Process memory and slices *)

Definition byte : Type := Z.

(** A slice header, as built by [getBytes]. *)
Record slice : Type := mkSlice { s_ptr : Z; s_len : Z; s_cap : Z }.

(** The [nil] slice. *)
Definition nil_slice : slice := mkSlice 0 0 0.

Definition in_range (s : slice) (a : Z) : bool :=
  (s_ptr s <=? a) && (a <? s_ptr s + s_len s).

(** Protection bits of [golang.org/x/sys/unix]. *)
Definition PROT_NONE : Z := 0.
Definition PROT_READ : Z := 1.
Definition PROT_WRITE : Z := 2.
(** [MADV_DONTDUMP], written [0x10] in [Lock]. *)
Definition MADV_DONTDUMP : Z := 16.

(** [container] of [internals.go]; the embedded mutex has no content in
    a sequential model. *)
Record container : Type := mkContainer {
  buffer : slice;
  readOnly : bool;
  destroyed : bool
}.

(** The state of the process: byte contents, per-address page attributes
    as the kernel holds them, the heap of [container] structs (a pointer
    is an index), and the package-level variables. *)
Record world : Type := mkWorld {
  mem : Z -> byte;
  prot : Z -> option Z;          (* [None]: not mapped *)
  locked : Z -> bool;
  nodump : Z -> bool;
  containers : list container;
  allLockedBuffers : list nat;
  canary : slice
}.

Definition set_range {A : Type} (f : Z -> A) (s : slice) (v : A) : Z -> A :=
  fun a => if in_range s a then v else f a.

Definition with_mem (w : world) (m : Z -> byte) : world :=
  mkWorld m (prot w) (locked w) (nodump w) (containers w) (allLockedBuffers w) (canary w).
Definition with_prot (w : world) (p : Z -> option Z) : world :=
  mkWorld (mem w) p (locked w) (nodump w) (containers w) (allLockedBuffers w) (canary w).
Definition with_locked (w : world) (l : Z -> bool) : world :=
  mkWorld (mem w) (prot w) l (nodump w) (containers w) (allLockedBuffers w) (canary w).
Definition with_nodump (w : world) (d : Z -> bool) : world :=
  mkWorld (mem w) (prot w) (locked w) d (containers w) (allLockedBuffers w) (canary w).
Definition with_containers (w : world) (cs : list container) : world :=
  mkWorld (mem w) (prot w) (locked w) (nodump w) cs (allLockedBuffers w) (canary w).
Definition with_registry (w : world) (r : list nat) : world :=
  mkWorld (mem w) (prot w) (locked w) (nodump w) (containers w) r (canary w).

(** Access is read off the protection bits: [PROT_READ] is bit 0 and
    [PROT_WRITE] bit 1.  A page mapped with [PROT_WRITE] alone counts as
    not readable here, although amd64 lets such a page be read; nothing in
    the package asks for that protection. *)
Definition readable (w : world) (a : Z) : bool :=
  match prot w a with Some p => Z.testbit p 0 | None => false end.
Definition writable (w : world) (a : Z) : bool :=
  match prot w a with Some p => Z.testbit p 1 | None => false end.


(** Every address of the slice satisfies [p]. *)
Definition range_all (p : Z -> bool) (s : slice) : bool :=
  forallb p (seqZ (s_ptr s) (s_len s)).

(** The bytes a slice designates. *)
Definition bytes_of (w : world) (s : slice) : list byte :=
  map (mem w) (seqZ (s_ptr s) (s_len s)).

(** ** Outcomes and the state monad *)

Inductive outcome (A : Type) : Type :=
| Returned (a : A)
| Panicked (msg : string)        (* a Go panic; the process aborts *)
| Faulted.                       (* an access the page protection forbids *)
Arguments Returned {A} a.
Arguments Panicked {A} msg.
Arguments Faulted {A}.

Definition M (A : Type) : Type := world -> outcome (A * world).

Definition ret {A : Type} (a : A) : M A := fun w => Returned (a, w).
Definition bind {A B : Type} (m : M A) (f : A -> M B) : M B :=
  fun w => match m w with
           | Returned (a, w') => f a w'
           | Panicked msg => Panicked msg
           | Faulted => Faulted
           end.
Definition panic {A : Type} (msg : string) : M A := fun _ => Panicked msg.

Notation "'let*' x ':=' m 'in' k" := (bind m (fun x => k))
  (at level 10, x name, m at level 100, k at level 200).
Notation "m ;; k" := (bind m (fun _ => k))
  (at level 100, k at level 200, right associativity).

Fixpoint for_each {A : Type} (l : list A) (body : A -> M unit) : M unit :=
  match l with
  | [] => ret tt
  | x :: l' => body x ;; for_each l' body
  end.

(** *** Slice expressions, with Go's bounds checks *)

(** [s[lo:hi]] *)
Definition slice_lo_hi (s : slice) (lo hi : Z) : M slice :=
  if (0 <=? lo) && (lo <=? hi) && (hi <=? s_cap s)
  then ret (mkSlice (s_ptr s + lo) (hi - lo) (s_cap s - lo))
  else panic "runtime error: slice bounds out of range".
(** [s[:hi]] *)
Definition slice_hi (s : slice) (hi : Z) : M slice := slice_lo_hi s 0 hi.
(** [s[lo:]] *)
Definition slice_lo (s : slice) (lo : Z) : M slice := slice_lo_hi s lo (s_len s).
(** [uintptr(unsafe.Pointer(&s[i]))].  The bounds check compares index
    and length as unsigned words.  For a length that is not negative this
    is [0 <= i < len]; behind a forged header of negative length, every
    index that is the smaller word passes. *)
Definition addr_of_index (s : slice) (i : Z) : M Z :=
  if (if 0 <=? s_len s
      then (0 <=? i) && (i <? s_len s)
      else wrap_uintptr i <? wrap_uintptr (s_len s))
  then ret (s_ptr s + i)
  else panic "runtime error: index out of range".

(** [s[i] = v] *)
Definition store_index (s : slice) (i : Z) (v : byte) : M unit :=
  let* a := addr_of_index s i in
  fun w => if writable w a
           then Returned (tt, with_mem w (fun a' => if a' =? a then v else mem w a'))
           else Faulted.

(** ** The kernel

    What the operating system answers is not decided by the program: each
    system call consults [kernel], and applies its documented effect when
    the call is granted. *)
Record kernel : Type := mkKernel {
  sys_mmap : world -> Z -> option Z;            (* base address, or an errno *)
  sys_munmap : world -> slice -> bool;
  sys_mlock : world -> slice -> bool;
  sys_munlock : world -> slice -> bool;
  sys_mprotect : world -> slice -> Z -> bool;
  sys_madvise : world -> slice -> Z -> bool;
  sys_getrandom : world -> Z -> option (Z -> byte)  (* byte at each offset *)
}.

Section Program.

Variable pageSize : Z.
Variable os : kernel.

(** ** [memcall/memcall_unix.go]

    The kernel keeps locks, advice and protection per page, and widens a
    request to the pages it touches; the world records them per address,
    over the bytes of the slice that was passed.  The two agree on
    [whole_pages] slices, which is what [createCanary] and the buffer
    constructors pass. *)

(** [Lock]: [madvise(b, 0x10)] with its failure ignored, then [mlock];
    a failed [mlock] panics. *)
Definition Lock (b : slice) : M unit := fun w =>
  let w1 := if sys_madvise os w b MADV_DONTDUMP
            then with_nodump w (set_range (nodump w) b true)
            else w in
  if sys_mlock os w1 b
  then Returned (tt, with_locked w1 (set_range (locked w1) b true))
  else Panicked "memguard.memcall.Lock(): could not aquire lock".

(** [Unlock]: [munlock]; a failure panics. *)
Definition Unlock (b : slice) : M unit := fun w =>
  if sys_munlock os w b
  then Returned (tt, with_locked w (set_range (locked w) b false))
  else Panicked "memguard.memcall.Unlock(): could not free lock".

(** [Alloc]: an anonymous private read-write mapping of [n] bytes, zero
    filled; the slice returned has length and capacity [n]. *)
Definition Alloc (n : Z) : M slice := fun w =>
  match sys_mmap os w n with
  | Some base =>
      let b := mkSlice base n n in
      Returned (b, mkWorld (set_range (mem w) b 0)
                           (set_range (prot w) b (Some (Z.lor PROT_READ PROT_WRITE)))
                           (locked w) (nodump w)
                           (containers w) (allLockedBuffers w) (canary w))
  | None => Panicked "memguard.memcall.Alloc(): could not allocate"
  end.

(** [Free]: [munmap]; the pages are gone, and with them their locks. *)
Definition Free (b : slice) : M unit := fun w =>
  if sys_munmap os w b
  then Returned (tt, mkWorld (mem w) (set_range (prot w) b None)
                             (set_range (locked w) b false) (nodump w)
                             (containers w) (allLockedBuffers w) (canary w))
  else Panicked "memguard.memcall.Free(): could not unallocate".

(** [Protect]: the protection value is chosen by the four-way test of
    the source, then [mprotect]. *)
Definition Protect (b : slice) (read write : bool) : M unit := fun w =>
  let p := if read && write then Z.lor PROT_READ PROT_WRITE
           else if read then PROT_READ
           else if write then PROT_WRITE
           else PROT_NONE in
  if sys_mprotect os w b p
  then Returned (tt, with_prot w (set_range (prot w) b (Some p)))
  else Panicked "memguard.memcall.Protect(): could not set protection".

(** ** [internals.go] *)

(** [getBytes]: a slice header with the given address, and length and
    capacity both [len]. *)
Definition getBytes (ptr len : Z) : slice := mkSlice ptr len len.

(** [fillRandBytes]: [rand.Read(b)], panicking on error.  Reading into
    memory that is not writable makes the read fail (EFAULT). *)
Definition fillRandBytes (b : slice) : M unit := fun w =>
  match sys_getrandom os w (s_len b) with
  | Some r =>
      if range_all (writable w) b
      then Returned (tt, with_mem w (fun a => if in_range b a
                                              then r (a - s_ptr b)
                                              else mem w a))
      else Panicked "memguard.csprng(): could not get random bytes"
  | None => Panicked "memguard.csprng(): could not get random bytes"
  end.

(** [wipeBytes]: [for i := 0; i < len(buf); i++ { buf[i] = byte(0) }] *)
Definition wipeBytes (buf : slice) : M unit :=
  for_each (seqZ 0 (s_len buf)) (fun i => store_index buf i 0).

(** [createCanary] of [internals.go]. *)
Definition createCanary : M slice :=
  let roundedLen := roundToPageSize pageSize 32 in
  let totalLen := int_add (int_mul 2 pageSize) roundedLen in
  let* memory := Alloc totalLen in
  let* inner := slice_lo_hi memory pageSize (int_add pageSize roundedLen) in
  Lock inner ;;
  let* front := slice_hi memory pageSize in
  Protect front false false ;;
  let* rear := slice_lo memory (int_add pageSize roundedLen) in
  Protect rear false false ;;
  let* p := addr_of_index memory (int_sub (int_add pageSize roundedLen) 32) in
  let c := getBytes p 32 in
  fillRandBytes c ;;
  let* inner' := slice_lo_hi memory pageSize (int_add pageSize roundedLen) in
  Protect inner' true false ;;
  ret c.

(** [getAllMemory]; [b] is the struct the pointer argument designates. *)
Definition getAllMemory (b : container) : M slice :=
  let bufLen := s_len (buffer b) in
  let roundedBufLen := roundToPageSize pageSize (int_add (s_len (buffer b)) 32) in
  let* p := addr_of_index (buffer b) 0 in
  let memAddr :=
    uintptr_sub p (uintptr_of_int (int_add (int_sub roundedBufLen bufLen) pageSize)) in
  let memLen := int_add (int_mul pageSize 2) roundedBufLen in
  ret (getBytes memAddr memLen).

End Program.

(** A kernel that grants every request the program makes: mappings are
    handed out inside the 64-bit address space, and locking, protecting,
    unlocking, unmapping and the random source never fail.  Nothing is
    asked of [madvise], whose failure [Lock] ignores. *)
Record cooperative (os : kernel) : Prop := {
  coop_mmap : forall w n, 0 < n <= int_max ->
      exists base, sys_mmap os w n = Some base /\ 0 <= base /\ base + n <= 2 ^ 64;
  coop_munmap : forall w s, sys_munmap os w s = true;
  coop_mlock : forall w s, sys_mlock os w s = true;
  coop_munlock : forall w s, sys_munlock os w s = true;
  coop_mprotect : forall w s p, sys_mprotect os w s p = true;
  coop_getrandom : forall w n, exists r, sys_getrandom os w n = Some r
}.

(** The heap of containers and the package variables are untouched. *)
Definition same_globals (w w' : world) : Prop :=
  containers w' = containers w /\
  allLockedBuffers w' = allLockedBuffers w /\
  canary w' = canary w.

(** ** A concrete platform, for examples *)

(** A kernel that never refuses; the region for the next container is
    mapped at [0x10000] plus one MiB per container already on the heap. *)
Definition os_granting : kernel :=
  mkKernel (fun w _ => Some (65536 + 1048576 *
                              (Z.of_nat (length (containers w)) mod 1048576)))
           (fun _ _ => true) (fun _ _ => true)
           (fun _ _ => true) (fun _ _ _ => true) (fun _ _ _ => true)
           (fun _ _ => Some (fun i => (7 * i + 1) mod 256)).

(** A kernel that maps at [0x10000] and refuses [munlock] and [mlock]. *)
Definition os_refusing_locks : kernel :=
  mkKernel (fun _ _ => Some 65536) (fun _ _ => true) (fun _ _ => false)
           (fun _ _ => false) (fun _ _ _ => true) (fun _ _ _ => true)
           (fun _ _ => Some (fun i => (7 * i + 1) mod 256)).

(** A process that has mapped nothing yet. *)
Definition world_empty : world :=
  mkWorld (fun _ => 0) (fun _ => None) (fun _ => false) (fun _ => false)
          [] [] nil_slice.

(** ** The guarded region of a buffer *)

(** The layout of a guarded region, address-ascending: a front guard of
    [P] bytes, an inner page set of [roundToPageSize (n + 32)] bytes whose
    last [n] bytes are the buffer (preceded by the 32-byte canary copy and,
    before that, padding), and a rear guard.  [region] is a Go slice inside
    the 64-bit address space, so its length is an [int]. *)
Definition guarded_layout (P : Z) (region : slice) (b : container) : Prop :=
  let n := s_len (buffer b) in
  let R := roundToPageSize P (int_add n 32) in
  0 <= s_ptr region /\
  s_ptr region + s_len region <= 2 ^ 64 /\
  s_len region <= int_max /\
  s_len region = 2 * P + R /\
  0 <= R - (n + 32) /\
  s_ptr (buffer b) = s_ptr region + P + (R - n).

(** ** A reading of [Unlock] to be tested *)

(** The statement that a refused [munlock] is only reported: whenever the
    kernel refuses, [Unlock] would still return. *)
Definition Unlock_proceeds_on_failure : Prop :=
  forall (os : kernel) (b : slice) (w : world),
    sys_munlock os w b = false -> exists w', Unlock os b w = Returned (tt, w').

(** ** Locked buffers

    The file that defines [New], [Destroy] and the other operations on a
    locked buffer is not among the sources; the definitions of this part
    follow sections 4.D, 4.E and 7 of the specification, on top of the
    functions of [internals.go] and [memcall] embedded above. *)

Inductive error : Type := ErrInvalidLength | ErrReadOnly | ErrDestroyed.

(** A [*LockedBuffer]: the address of its [container] in the heap. *)
Definition LockedBuffer : Type := nat.

(** [*b], panicking on a pointer that designates nothing. *)
Definition load (b : LockedBuffer) : M container := fun w =>
  match containers w !! b with
  | Some c => Returned (c, w)
  | None => Panicked "runtime error: invalid memory address or nil pointer dereference"
  end.

(** [*b = c] *)
Definition store (b : LockedBuffer) (c : container) : M unit := fun w =>
  Returned (tt, with_containers w (<[b := c]> (containers w))).

(** Go's builtin [copy(dst, src)]: moves [min(len(dst), len(src))] bytes,
    as if through a temporary, and returns that number. *)
Definition copy (dst src : slice) : M Z := fun w =>
  let n := Z.min (s_len dst) (s_len src) in
  if range_all (readable w) (mkSlice (s_ptr src) n n) &&
     range_all (writable w) (mkSlice (s_ptr dst) n n)
  then Returned (n, with_mem w (fun a => if in_range (mkSlice (s_ptr dst) n n) a
                                         then mem w (s_ptr src + (a - s_ptr dst))
                                         else mem w a))
  else Faulted.

(** Reading the bytes of a slice, faulting where the pages forbid it. *)
Definition read_bytes (s : slice) : M (list byte) := fun w =>
  if range_all (readable w) s then Returned (bytes_of w s, w) else Faulted.

(** Modelled from the spec: the body of the comparison used by [EqualTo]
    is missing.  Section 4.E asks for a comparison that never stops at the
    first mismatch and never looks at a prefix only: every position is
    visited and the differences are accumulated with [|] and [^]. *)
Fixpoint ct_loop (x y : list byte) (v : Z) : Z :=
  match x, y with
  | a :: x', b :: y' => ct_loop x' y' (Z.lor v (Z.lxor a b))
  | _, _ => v
  end.

Definition constantTimeCompare (x y : list byte) : bool :=
  if Nat.eqb (length x) (length y) then ct_loop x y 0 =? 0 else false.

Section LockedBuffers.

Variable pageSize : Z.
Variable os : kernel.

(** Modelled from the spec: [SafePanic] is missing.  Section 4.F: it
    destroys every live buffer and then aborts the process with the cause;
    of this only the abort can be observed in an [outcome]. *)
Definition SafePanic {A : Type} (cause : string) : M A := panic cause.

(** The inner page set of a container: the pages between the two guards
    of the region that [getAllMemory] computes. *)
Definition innerPages (c : container) : M slice :=
  let* region := getAllMemory pageSize c in
  ret (getBytes (s_ptr region + pageSize)
                (roundToPageSize pageSize (int_add (s_len (buffer c)) 32))).

(** Modelled from the spec: [New] is missing.  Section 4.D, [Create(n)],
    steps 1 to 10.  [Lock] of [memcall] both advises the kernel not to
    dump and pins the pages (step 4).  The finalizer of step 9 concerns
    the garbage collector and has no counterpart here. *)
Definition New (n : Z) : M (LockedBuffer + error) :=
  if n <=? 0 then ret (inr ErrInvalidLength) else
  let inner := roundToPageSize pageSize (int_add n 32) in
  let T := int_add (int_mul 2 pageSize) inner in
  let* region := Alloc os T in
  let inner_pages := getBytes (s_ptr region + pageSize) inner in
  Lock os inner_pages ;;
  let* front := slice_hi region pageSize in
  Protect os front false false ;;
  let* rear := slice_lo region (int_add pageSize inner) in
  Protect os rear false false ;;
  let* canarySlot :=
    slice_lo_hi inner_pages (int_sub (int_sub inner n) 32) (int_sub inner n) in
  let* K := (fun w => Returned (canary w, w)) in
  copy canarySlot K ;;
  let* data := slice_lo_hi inner_pages (int_sub inner n) inner in
  let* b := (fun w => Returned (length (containers w),
                     with_containers w (containers w ++ [mkContainer data false false]))) in
  (fun w => Returned (tt, with_registry w (allLockedBuffers w ++ [b]))) ;;
  ret (inl b).

(** Modelled from the spec: [Destroy] is missing.  Section 4.D,
    [Destroy(buffer)]: nothing when already destroyed; otherwise make the
    inner pages writable, check the canary copy against the canary (a
    mismatch is fatal), wipe the copy and the data, unlock, make the whole
    region writable, unmap it, reset the three fields and leave the
    registry. *)
Definition Destroy (b : LockedBuffer) : M unit :=
  let* c := load b in
  if destroyed c then ret tt else
  let* region := getAllMemory pageSize c in
  let* inner_pages := innerPages c in
  Protect os inner_pages true true ;;
  let n := s_len (buffer c) in
  let inner := s_len inner_pages in
  let* canarySlot :=
    slice_lo_hi inner_pages (int_sub (int_sub inner n) 32) (int_sub inner n) in
  let* K := (fun w => Returned (canary w, w)) in
  let* slot := read_bytes canarySlot in
  let* k := read_bytes K in
  (if bool_decide (slot = k) then ret tt
   else SafePanic "memguard.Destroy(): buffer underflow detected") ;;
  wipeBytes canarySlot ;;
  wipeBytes (buffer c) ;;
  Unlock os inner_pages ;;
  Protect os region true true ;;
  Free os region ;;
  store b (mkContainer nil_slice false true) ;;
  (fun w => Returned (tt, with_registry w
                (List.filter (fun p => negb (Nat.eqb p b)) (allLockedBuffers w)))).

(** Modelled from the spec: [Copy] is missing.  Section 4.E: refuse a
    destroyed buffer, then a read-only one; otherwise write
    [min(len(data), len(src))] bytes of [src] into the data. *)
Definition Copy (b : LockedBuffer) (src : slice) : M (option error) :=
  let* c := load b in
  if destroyed c then ret (Some ErrDestroyed) else
  if readOnly c then ret (Some ErrReadOnly) else
  copy (buffer c) src ;;
  ret None.

(** Modelled from the spec: [Move] is missing.  Section 4.E: [Copy(src)],
    then wipe the whole of [src]; an error of [Copy] is returned as is. *)
Definition Move (b : LockedBuffer) (src : slice) : M (option error) :=
  let* e := Copy b src in
  match e with
  | Some err => ret (Some err)
  | None => wipeBytes src ;; ret None
  end.

(** Modelled from the spec: [EqualTo] is missing.  Section 4.E: refuse a
    destroyed buffer, otherwise compare the data with [other] in constant
    time. *)
Definition EqualTo (b : LockedBuffer) (other : slice) : M (bool * option error) :=
  let* c := load b in
  if destroyed c then ret (false, Some ErrDestroyed) else
  let* x := read_bytes (buffer c) in
  let* y := read_bytes other in
  ret (constantTimeCompare x y, None).

(** Modelled from the spec: [MarkAsReadOnly] is missing.  Section 4.E. *)
Definition MarkAsReadOnly (b : LockedBuffer) : M (option error) :=
  let* c := load b in
  if destroyed c then ret (Some ErrDestroyed) else
  if readOnly c then ret None else
  let* inner_pages := innerPages c in
  Protect os inner_pages true false ;;
  store b (mkContainer (buffer c) true (destroyed c)) ;;
  ret None.

(** Modelled from the spec: [MarkAsReadWrite] is missing.  Section 4.E. *)
Definition MarkAsReadWrite (b : LockedBuffer) : M (option error) :=
  let* c := load b in
  if destroyed c then ret (Some ErrDestroyed) else
  if negb (readOnly c) then ret None else
  let* inner_pages := innerPages c in
  Protect os inner_pages true true ;;
  store b (mkContainer (buffer c) false (destroyed c)) ;;
  ret None.

(** Modelled from the spec: [NewFromBytes] is missing.  Section 6:
    [New(len(src))], then [Move(src)]. *)
Definition NewFromBytes (src : slice) : M (LockedBuffer + error) :=
  let* r := New (s_len src) in
  match r with
  | inr e => ret (inr e)
  | inl b => Move b src ;; ret (inl b)
  end.

(** Modelled from the spec: [Trim] is missing.  Section 4.E: refuse a
    destroyed buffer and bounds outside the data; otherwise create a
    buffer of length [size], copy [data[offset .. offset+size]] into it and
    mark it read-only when the source is. *)
Definition Trim (b : LockedBuffer) (offset size : Z) : M (LockedBuffer + error) :=
  let* c := load b in
  if destroyed c then ret (inr ErrDestroyed) else
  if (offset <? 0) || (size <=? 0) || (s_len (buffer c) <? offset + size)
  then ret (inr ErrInvalidLength) else
  let* r := New size in
  match r with
  | inr e => ret (inr e)
  | inl nb =>
      let* part := slice_lo_hi (buffer c) offset (int_add offset size) in
      Copy nb part ;;
      (if readOnly c then MarkAsReadOnly nb else ret None) ;;
      ret (inl nb)
  end.

End LockedBuffers.

(** ** The second revision of [internals.go]

    In this revision the functions of [memcall] return an error and the
    caller hands it to [SafePanic]; [roundToPageSize], [getAllMemory],
    [getBytes], [fillRandBytes] and [wipeBytes] are as above. *)

Module Part000.

Section Program.

Variable pageSize : Z.
Variable os : kernel.

(** Modelled from the spec: the revision of [memcall] that returns errors
    is missing.  Sections 4.A and 6 give its operations the effects of the
    system calls embedded above; here a refused call hands its message to
    the caller and changes nothing. *)
Definition Alloc_err (n : Z) : M (slice * option string) := fun w =>
  match Alloc os n w with
  | Returned (b, w') => Returned ((b, None), w')
  | Panicked msg => Returned ((nil_slice, Some msg), w)
  | Faulted => Faulted
  end.

Definition Protect_err (b : slice) (read write : bool) : M (option string) := fun w =>
  match Protect os b read write w with
  | Returned (_, w') => Returned (None, w')
  | Panicked msg => Returned (Some msg, w)
  | Faulted => Faulted
  end.

Definition Lock_err (b : slice) : M (option string) := fun w =>
  match Lock os b w with
  | Returned (_, w') => Returned (None, w')
  | Panicked msg => Returned (Some msg, w)
  | Faulted => Faulted
  end.

(** [if err != nil { SafePanic(err) }] *)
Definition check (err : option string) : M unit :=
  match err with
  | Some msg => SafePanic msg
  | None => ret tt
  end.

(** [createCanary] of the second revision: the guards are protected
    before the inner pages are locked. *)
Definition createCanary : M slice :=
  let roundedLen := roundToPageSize pageSize 32 in
  let totalLen := int_add (int_mul 2 pageSize) roundedLen in
  let* r := Alloc_err totalLen in
  check (snd r) ;;
  let memory := fst r in
  let* front := slice_hi memory pageSize in
  let* err := Protect_err front false false in
  check err ;;
  let* rear := slice_lo memory (int_add pageSize roundedLen) in
  let* err := Protect_err rear false false in
  check err ;;
  let* inner := slice_lo_hi memory pageSize (int_add pageSize roundedLen) in
  let* err := Lock_err inner in
  check err ;;
  let* p := addr_of_index memory (int_sub (int_add pageSize roundedLen) 32) in
  let c := getBytes p 32 in
  fillRandBytes os c ;;
  let* inner' := slice_lo_hi memory pageSize (int_add pageSize roundedLen) in
  let* err := Protect_err inner' true false in
  check err ;;
  ret c.

End Program.

End Part000.

(** ** A reading of [New] to be tested *)


(** ** Example processes *)

(** A world with one live, writable buffer holding "test" at address 100;
    "test" again at 200, "toast" at 300 and "yellow submarine" at 400. *)
Definition world_test : world :=
  mkWorld (fun a => nth (Z.to_nat (a - 100))
                      [116; 101; 115; 116] (* test *)
                      (nth (Z.to_nat (a - 200)) [116; 101; 115; 116]
                         (nth (Z.to_nat (a - 300)) [116; 111; 97; 115; 116] (* toast *)
                            (nth (Z.to_nat (a - 400))
                               [121; 101; 108; 108; 111; 119; 32; 115;
                                117; 98; 109; 97; 114; 105; 110; 101] 0))))
          (fun _ => Some (Z.lor PROT_READ PROT_WRITE))
          (fun _ => false) (fun _ => false)
          [mkContainer (mkSlice 100 4 4) false false] [0%nat] nil_slice.

(** A process whose only mapping is a read-only canary at [0x1000]. *)
Definition world_canary : world :=
  mkWorld (fun a => if (4096 <=? a) && (a <? 4128) then (a * 37 + 11) mod 256 else 0)
          (fun a => if (4096 <=? a) && (a <? 4128) then Some PROT_READ else None)
          (fun _ => false) (fun _ => false)
          [] [] (mkSlice 4096 32 32).

(** A live buffer of 8 bytes in its guarded region at [0x10000] (page size
    4096), with the canary of [world_canary] and an intact copy of it in
    front of the data. *)
Definition world_guarded : world :=
  mkWorld (fun a => if (4096 <=? a) && (a <? 4128) then (a * 37 + 11) mod 256
                    else if (73688 <=? a) && (a <? 73720)
                         then ((a - 69592) * 37 + 11) mod 256
                         else if (73720 <=? a) && (a <? 73728) then 120 else 0)
          (fun a => if (4096 <=? a) && (a <? 4128) then Some PROT_READ
                    else if (69632 <=? a) && (a <? 73728)
                         then Some (Z.lor PROT_READ PROT_WRITE)
                         else if (65536 <=? a) && (a <? 77824) then Some PROT_NONE
                              else None)
          (fun a => (69632 <=? a) && (a <? 73728))
          (fun a => (69632 <=? a) && (a <? 73728))
          [mkContainer (mkSlice 73720 8 8) false false] [0%nat]
          (mkSlice 4096 32 32).

(** A process with the canary of [world_canary] and a few byte strings on
    its heap: "test" at 100 and at 200, "toast" at 300, "yellow submarine"
    at 400 and "xxxxyyyy" at 500. *)
Definition world_heap : world :=
  mkWorld (fun a => if (4096 <=? a) && (a <? 4128) then (a * 37 + 11) mod 256
                    else nth (Z.to_nat (a - 100)) [116; 101; 115; 116]
                      (nth (Z.to_nat (a - 200)) [116; 101; 115; 116]
                         (nth (Z.to_nat (a - 300)) [116; 111; 97; 115; 116]
                            (nth (Z.to_nat (a - 400))
                               [121; 101; 108; 108; 111; 119; 32; 115;
                                117; 98; 109; 97; 114; 105; 110; 101]
                               (nth (Z.to_nat (a - 500))
                                  [120; 120; 120; 120; 121; 121; 121; 121] 0)))))
          (fun a => if (4096 <=? a) && (a <? 4128) then Some PROT_READ
                    else if (100 <=? a) && (a <? 1000)
                         then Some (Z.lor PROT_READ PROT_WRITE) else None)
          (fun _ => false) (fun _ => false)
          [] [] (mkSlice 4096 32 32).

(** ** Observing a run *)

(** The value a run returns, if it returns. *)
Definition value {A : Type} (o : outcome (A * world)) : option A :=
  match o with Returned (a, _) => Some a | _ => None end.

(** Continue with the buffer when the constructor gave one. *)
Definition on_buffer {A : Type} (r : LockedBuffer + error)
    (k : LockedBuffer -> M (option A)) : M (option A) :=
  match r with inl b => k b | inr _ => ret None end.

(** The exported view of a buffer: its bytes, [cap(b.Buffer)],
    [b.ReadOnly] and [b.Destroyed]. *)
Definition fields_of (b : LockedBuffer) : M (list byte * Z * bool * bool) :=
  let* c := load b in
  fun w => Returned ((bytes_of w (buffer c), s_cap (buffer c), readOnly c, destroyed c), w).

(** ** More examples and the canary region *)



(** The region [createCanary] leaves behind at [base], with the random
    bytes [r]: guards without access, inner pages locked and read-only,
    the random bytes in the last 32 bytes of the inner pages, zeros in the
    rest of the mapping, and nothing changed anywhere else. *)
Definition canary_region (P : Z) (w w' : world) (base : Z) (r : Z -> byte) : Prop :=
  let R := roundToPageSize P 32 in
  (forall a, base <= a < base + P -> readable w' a = false /\ writable w' a = false) /\
  (forall a, base + P + R <= a < base + 2 * P + R ->
             readable w' a = false /\ writable w' a = false) /\
  (forall a, base + P <= a < base + P + R ->
             locked w' a = true /\ readable w' a = true /\ writable w' a = false) /\
  (forall i, 0 <= i < 32 -> mem w' (base + P + R - 32 + i) = r i) /\
  (forall a, base <= a < base + 2 * P + R ->
             ~ (base + P + R - 32 <= a < base + P + R) -> mem w' a = 0) /\
  (forall a, ~ (base <= a < base + 2 * P + R) ->
             mem w' a = mem w a /\ prot w' a = prot w a /\ locked w' a = locked w a) /\
  same_globals w w'.

(** * Part II: properties *)

(** ** Machine integers *)

Lemma wrap_int_id z : in_int z -> wrap_int z = z.
Proof.
  unfold in_int, int_min, int_max, wrap_int. intros Hz.
  rewrite Z.mod_small by lia. lia.
Qed.

Lemma wrap_int_range z : in_int (wrap_int z).
Proof.
  unfold in_int, int_min, int_max, wrap_int.
  pose proof (Z.mod_pos_bound (z + 2 ^ 63) (2 ^ 64) ltac:(lia)). lia.
Qed.

(** A sum that exceeds [int_max] by less than [2^64] comes back
    shifted down by [2^64]. *)
Lemma wrap_int_overflow z :
  int_max < z <= int_max + 2 ^ 64 -> wrap_int z = z - 2 ^ 64.
Proof.
  unfold int_max, wrap_int. intros Hz.
  replace (z + 2 ^ 63) with ((z - 2 ^ 63) + 1 * 2 ^ 64) by lia.
  rewrite Z.mod_add by lia. rewrite Z.mod_small by lia. lia.
Qed.

Lemma wrap_uintptr_id z : 0 <= z < 2 ^ 64 -> wrap_uintptr z = z.
Proof. intros Hz. unfold wrap_uintptr. now rewrite Z.mod_small. Qed.

(** ** Page arithmetic *)

Lemma land_lnot_pow2 y k :
  0 <= k -> Z.land y (Z.lnot (2 ^ k - 1)) = 2 ^ k * (y / 2 ^ k).
Proof.
  intros Hk. rewrite <- Z.sub_land_same_l.
  replace (2 ^ k - 1) with (Z.ones k) by (rewrite Z.ones_equiv; lia).
  rewrite Z.land_ones by lia.
  pose proof (Z.div_mod y (2 ^ k) ltac:(lia)). lia.
Qed.

Lemma pow2_62_bound k : 0 <= k <= 62 -> 0 < 2 ^ k <= 2 ^ 62.
Proof.
  intros Hk. split; [lia |]. apply Z.pow_le_mono_r; lia.
Qed.

(** Without overflow the code computes [P * ((x + P - 1) / P)]. *)
Lemma roundToPageSize_exact k x :
  0 <= k <= 62 -> in_int (x + 2 ^ k - 1) ->
  roundToPageSize (2 ^ k) x = 2 ^ k * ((x + 2 ^ k - 1) / 2 ^ k).
Proof.
  intros Hk Hx. pose proof (pow2_62_bound k Hk) as HP.
  unfold roundToPageSize, int_and, int_not, int_add, int_sub.
  rewrite (wrap_int_id (2 ^ k - 1)) by (unfold in_int, int_min, int_max; lia).
  replace (x + (2 ^ k - 1)) with (x + 2 ^ k - 1) by lia.
  rewrite (wrap_int_id _ Hx).
  now apply land_lnot_pow2.
Qed.

(** C8: for a page size [P = 2^k] and any [x >= 0] whose intermediate sum
    [x + P - 1] stays within [int], [roundToPageSize x] is a multiple of
    [P], is at least [x], and is below every other multiple of [P] that is
    at least [x]; and for every [j >= 1] (again without overflow)
    [roundToPageSize (j*P) = j*P] and [roundToPageSize (j*P + 1) = (j+1)*P]. *)
Theorem roundToPageSize_least_multiple (k x : Z) :
  0 <= k <= 62 -> 0 <= x -> x + 2 ^ k - 1 <= int_max ->
  let P := 2 ^ k in
  let r := roundToPageSize P x in
  (P | r) /\ x <= r /\
  (forall m, (P | m) -> x <= m -> r <= m) /\
  (forall j, 1 <= j -> j * P + P - 1 <= int_max ->
             roundToPageSize P (j * P) = j * P) /\
  (forall j, 1 <= j -> j * P + 1 + P - 1 <= int_max ->
             roundToPageSize P (j * P + 1) = (j + 1) * P).
Proof.
  intros Hk Hx Hov P r. pose proof (pow2_62_bound k Hk) as HP.
  assert (Hexact : forall y, 0 <= y -> y + P - 1 <= int_max ->
            roundToPageSize P y = P * ((y + P - 1) / P)).
  { intros y Hy Hy'. apply roundToPageSize_exact; [lia |].
    unfold in_int, int_min, int_max in *. fold P. lia. }
  assert (Hr : r = P * ((x + P - 1) / P)) by (apply Hexact; lia).
  clearbody r.
  pose proof (Z.div_mod (x + P - 1) P ltac:(lia)) as Hdm.
  pose proof (Z.mod_pos_bound (x + P - 1) P ltac:(lia)) as Hmod.
  repeat split.
  - exists ((x + P - 1) / P). lia.
  - lia.
  - intros m [q Hq] Hm. subst m. rewrite Hr.
    assert ((x + P - 1) / P < q + 1); [| nia].
    apply Z.div_lt_upper_bound; nia.
  - intros j Hj Hjov. rewrite Hexact by nia.
    replace (j * P + P - 1) with ((P - 1) + j * P) by lia.
    rewrite Z.div_add by lia. rewrite Z.div_small by lia. lia.
  - intros j Hj Hjov. rewrite Hexact by nia.
    replace (j * P + 1 + P - 1) with (0 + (j + 1) * P) by lia.
    rewrite Z.div_add by lia. rewrite Z.div_small by lia. lia.
Qed.

Lemma roundToPageSize_least_multiple_witness :
  let r := roundToPageSize 4096 5000 in
  (4096 | r) /\ 5000 <= r /\ (forall m, (4096 | m) -> 5000 <= m -> r <= m).
Proof.
  pose proof (roundToPageSize_least_multiple 12 5000
                ltac:(lia) ltac:(lia) ltac:(unfold int_max; lia)) as H.
  cbv zeta in H. change (2 ^ 12) with 4096 in H.
  destruct H as (H1 & H2 & H3 & _). auto.
Defined.

(** C10: with [P = 2^k] and 64-bit wrap-around, every [x] in
    [(2^63 - P, 2^63 - 1]] makes the sum [x + P - 1] wrap; the result is
    [-2^63], hence negative and strictly below [x]. *)
Theorem roundToPageSize_wraps_near_int_max (k x : Z) :
  0 <= k <= 62 -> 2 ^ 63 - 2 ^ k < x <= 2 ^ 63 - 1 ->
  let P := 2 ^ k in
  int_add x (int_sub P 1) = x + P - 1 - 2 ^ 64 /\
  roundToPageSize P x = - 2 ^ 63 /\
  roundToPageSize P x < 0 /\
  roundToPageSize P x < x.
Proof.
  intros Hk Hx P. pose proof (pow2_62_bound k Hk) as HP. fold P in HP, Hx.
  assert (Hsum : int_add x (int_sub P 1) = x + P - 1 - 2 ^ 64).
  { unfold int_add, int_sub.
    rewrite (wrap_int_id (P - 1)) by (unfold in_int, int_min, int_max; lia).
    rewrite wrap_int_overflow by (unfold int_max; lia). lia. }
  assert (Hr : roundToPageSize P x = - 2 ^ 63).
  { unfold roundToPageSize. rewrite Hsum. unfold int_and, int_not, int_sub.
    rewrite (wrap_int_id (P - 1)) by (unfold in_int, int_min, int_max; lia).
    unfold P. rewrite land_lnot_pow2 by lia. fold P.
    assert (H63 : 2 ^ 63 = 2 ^ (63 - k) * P).
    { unfold P. rewrite <- Z.pow_add_r by lia. f_equal. lia. }
    replace (x + P - 1 - 2 ^ 64) with ((x + P - 1 - 2 ^ 63) + (- 2 ^ (63 - k)) * P) by lia.
    rewrite Z.div_add by lia. rewrite Z.div_small by lia. lia. }
  rewrite Hr. repeat split; lia.
Qed.

Lemma roundToPageSize_wraps_near_int_max_witness :
  roundToPageSize 4096 (2 ^ 63 - 1) = - 2 ^ 63.
Proof.
  pose proof (roundToPageSize_wraps_near_int_max 12 (2 ^ 63 - 1)
                ltac:(lia) ltac:(lia)) as H.
  cbv zeta in H. change (2 ^ 12) with 4096 in H.
  destruct H as (_ & H & _). exact H.
Defined.

(** For any non-negative mask [m], clearing the bits of [m] lowers a
    value by at most [m]. *)
Lemma land_mask_bounds y m : 0 <= m -> 0 <= Z.land y m <= m.
Proof.
  intros Hm. split.
  - apply Z.land_nonneg. now right.
  - pose proof (Z.sub_land_same_l m y) as H.
    assert (0 <= Z.land m (Z.lnot y)) by (apply Z.land_nonneg; now left).
    rewrite (Z.land_comm y m). lia.
Qed.

Lemma land_lnot_bounds y m : 0 <= m -> y - m <= Z.land y (Z.lnot m) <= y.
Proof.
  intros Hm. rewrite <- Z.sub_land_same_l.
  pose proof (land_mask_bounds y m Hm). lia.
Qed.

(** Whatever the (positive) page size, a rounded length that did not
    overflow lies between [x] and [x + P - 1]. *)
Lemma roundToPageSize_bounds P x :
  0 < P -> in_int (P - 1) -> in_int (x + (P - 1)) ->
  x <= roundToPageSize P x <= x + (P - 1).
Proof.
  intros HP HP1 Hx. unfold roundToPageSize, int_and, int_not, int_add, int_sub.
  rewrite (wrap_int_id _ HP1), (wrap_int_id _ Hx).
  pose proof (land_lnot_bounds (x + (P - 1)) (P - 1) ltac:(lia)). lia.
Qed.

(** ** Running the monad *)

Lemma int_add_id a b : in_int (a + b) -> int_add a b = a + b.
Proof. apply wrap_int_id. Qed.
Lemma int_sub_id a b : in_int (a - b) -> int_sub a b = a - b.
Proof. apply wrap_int_id. Qed.
Lemma int_mul_id a b : in_int (a * b) -> int_mul a b = a * b.
Proof. apply wrap_int_id. Qed.

Lemma slice_lo_hi_ok s lo hi w :
  0 <= lo <= hi -> hi <= s_cap s ->
  slice_lo_hi s lo hi w = Returned (mkSlice (s_ptr s + lo) (hi - lo) (s_cap s - lo), w).
Proof.
  intros H1 H2. unfold slice_lo_hi.
  destruct (Z.leb_spec 0 lo); [| lia].
  destruct (Z.leb_spec lo hi); [| lia].
  destruct (Z.leb_spec hi (s_cap s)); [| lia].
  reflexivity.
Qed.

Lemma addr_of_index_ok s i w :
  0 <= i < s_len s -> addr_of_index s i w = Returned (s_ptr s + i, w).
Proof.
  intros H. unfold addr_of_index.
  destruct (Z.leb_spec 0 (s_len s)); [| lia].
  destruct (Z.leb_spec 0 i); [| lia].
  destruct (Z.ltb_spec i (s_len s)); [| lia].
  reflexivity.
Qed.

Lemma addr_of_index_empty s i w :
  s_len s = 0 ->
  addr_of_index s i w = Panicked "runtime error: index out of range".
Proof.
  intros H. unfold addr_of_index. rewrite H. cbn [Z.leb Z.compare].
  destruct (Z.leb_spec 0 i); destruct (Z.ltb_spec i 0); try lia; reflexivity.
Qed.

(** Behind a header of negative length the bounds check, being
    unsigned, lets index 0 through, and [getAllMemory] computes a region
    from it. *)
Example getAllMemory_negative_length :
  value (getAllMemory 4096 (mkContainer (mkSlice 73720 (-5) (-5)) false false)
           world_empty)
  = Some (mkSlice 65523 12288 12288).
Proof. vm_compute. reflexivity. Qed.

Lemma in_range_true s a : in_range s a = true <-> s_ptr s <= a < s_ptr s + s_len s.
Proof. unfold in_range. rewrite andb_true_iff, Z.leb_le, Z.ltb_lt. tauto. Qed.

Lemma in_range_false s a :
  in_range s a = false <-> ~ (s_ptr s <= a < s_ptr s + s_len s).
Proof. rewrite <- in_range_true. destruct (in_range s a); split; congruence. Qed.

Lemma range_all_spec p s :
  range_all p s = true <-> forall a, s_ptr s <= a < s_ptr s + s_len s -> p a = true.
Proof.
  unfold range_all. rewrite forallb_forall. split.
  - intros H a Ha. apply H. apply list_elem_of_In, elem_of_seqZ. lia.
  - intros H a Ha. apply list_elem_of_In, elem_of_seqZ in Ha. apply H. lia.
Qed.

Lemma same_globals_refl w : same_globals w w.
Proof. repeat split. Qed.

Lemma same_globals_trans w1 w2 w3 :
  same_globals w1 w2 -> same_globals w2 w3 -> same_globals w1 w3.
Proof. unfold same_globals. intros (?&?&?) (?&?&?). repeat split; congruence. Qed.

Section Steps.

Variable os : kernel.
Hypothesis Hos : cooperative os.

Lemma Alloc_spec n base w :
  sys_mmap os w n = Some base ->
  exists w', Alloc os n w = Returned (mkSlice base n n, w') /\
    mem w' = set_range (mem w) (mkSlice base n n) 0 /\
    prot w' = set_range (prot w) (mkSlice base n n)
                        (Some (Z.lor PROT_READ PROT_WRITE)) /\
    locked w' = locked w /\ nodump w' = nodump w /\ same_globals w w'.
Proof.
  intros Hm. unfold Alloc. rewrite Hm. eexists. split; [reflexivity |].
  cbn. repeat split.
Qed.

Lemma Lock_spec b w :
  exists w', Lock os b w = Returned (tt, w') /\
    mem w' = mem w /\ prot w' = prot w /\
    locked w' = set_range (locked w) b true /\ same_globals w w'.
Proof.
  unfold Lock. rewrite (coop_mlock os Hos). eexists. split; [reflexivity |].
  destruct (sys_madvise os w b MADV_DONTDUMP); cbn; repeat split.
Qed.

Lemma Unlock_spec b w :
  exists w', Unlock os b w = Returned (tt, w') /\
    mem w' = mem w /\ prot w' = prot w /\
    locked w' = set_range (locked w) b false /\ same_globals w w'.
Proof.
  unfold Unlock. rewrite (coop_munlock os Hos). eexists. split; [reflexivity |].
  cbn. repeat split.
Qed.

Lemma Free_spec b w :
  exists w', Free os b w = Returned (tt, w') /\
    mem w' = mem w /\ prot w' = set_range (prot w) b None /\
    locked w' = set_range (locked w) b false /\ same_globals w w'.
Proof.
  unfold Free. rewrite (coop_munmap os Hos). eexists. split; [reflexivity |].
  cbn. repeat split.
Qed.

Lemma Protect_spec b (rd wr : bool) w :
  exists w', Protect os b rd wr w = Returned (tt, w') /\
    mem w' = mem w /\
    prot w' = set_range (prot w) b
                (Some (if rd then (if wr then Z.lor PROT_READ PROT_WRITE else PROT_READ)
                       else (if wr then PROT_WRITE else PROT_NONE))) /\
    locked w' = locked w /\ same_globals w w'.
Proof.
  unfold Protect. rewrite (coop_mprotect os Hos). eexists. split; [reflexivity |].
  destruct rd, wr; cbn; repeat split.
Qed.

Lemma fillRandBytes_spec b w :
  range_all (writable w) b = true ->
  exists r w', sys_getrandom os w (s_len b) = Some r /\
    fillRandBytes os b w = Returned (tt, w') /\
    mem w' = (fun a => if in_range b a then r (a - s_ptr b) else mem w a) /\
    prot w' = prot w /\ locked w' = locked w /\ same_globals w w'.
Proof.
  intros Hw. destruct (coop_getrandom os Hos w (s_len b)) as [r Hr].
  exists r. unfold fillRandBytes. rewrite Hr, Hw. eexists.
  split; [reflexivity |]. split; [reflexivity |]. cbn. repeat split.
Qed.

End Steps.

(** Consume the next statement of a monadic run recorded in [E]. *)
Ltac run_pure E lem :=
  unfold bind at 1 in E; rewrite lem in E by (cbn; lia);
  cbn [s_ptr s_len s_cap] in E.

Ltac run_with E call spec :=
  let w1 := fresh "w" in
  let Hrun := fresh "Hrun" in
  destruct spec as (w1 & Hrun & ?Hmem & ?Hprot & ?Hlocked & ?Hglob);
  rewrite Hrun in E; clear Hrun.

Ltac run_Lock E Hc :=
  unfold bind at 1 in E;
  match type of E with
  | context [Lock ?os ?b ?w0] => run_with E (Lock os b w0) (Lock_spec os Hc b w0)
  end.

Ltac run_Unlock E Hc :=
  unfold bind at 1 in E;
  match type of E with
  | context [Unlock ?os ?b ?w0] => run_with E (Unlock os b w0) (Unlock_spec os Hc b w0)
  end.

Ltac run_Free E Hc :=
  unfold bind at 1 in E;
  match type of E with
  | context [Free ?os ?b ?w0] => run_with E (Free os b w0) (Free_spec os Hc b w0)
  end.

Ltac run_Protect E Hc :=
  unfold bind at 1 in E;
  match type of E with
  | context [Protect ?os ?b ?rd ?wr ?w0] =>
      run_with E (Protect os b rd wr w0) (Protect_spec os Hc b rd wr w0)
  end.

(** Decide every [in_range] test in the goal and finish by arithmetic. *)
Ltac range_lia :=
  repeat match goal with
         | |- context [in_range ?s ?a] =>
             let E := fresh "E" in
             destruct (in_range s a) eqn:E;
             [apply in_range_true in E | apply in_range_false in E];
             cbn [s_ptr s_len s_cap] in E
         end;
  try reflexivity; try lia;
  try (cbn [s_ptr s_len s_cap]; f_equal; lia).

(** Express the fields of the final world through those of the initial
    one, using the equations collected while running. *)
Ltac unfold_fields :=
  repeat match goal with
         | H : mem _ = _ |- _ => rewrite H
         | H : prot _ = _ |- _ => rewrite H
         | H : locked _ = _ |- _ => rewrite H
         end.

Lemma os_granting_cooperative : cooperative os_granting.
Proof.
  constructor; cbn; try reflexivity.
  - intros w n Hn. eexists. split; [reflexivity |].
    pose proof (Z.mod_pos_bound (Z.of_nat (length (containers w))) 1048576
                  ltac:(lia)).
    unfold int_max in Hn. lia.
  - intros _ _. eexists. reflexivity.
Qed.

(** ** The canary region *)

(** C6: on a kernel that grants its requests, [createCanary] maps exactly
    [2*P + roundToPageSize 32] bytes, leaves the first [P] and the last [P]
    of them without read or write access, leaves the [roundToPageSize 32]
    bytes in between locked and read-only, has stored the random bytes in
    exactly the last 32 bytes of that middle part (the rest of the fresh
    mapping is still zero, memory outside it is untouched), and returns a
    slice of length and capacity 32 that designates those 32 bytes. *)
Theorem createCanary_layout (P : Z) (os : kernel) (w : world) :
  0 < P <= 2 ^ 60 -> cooperative os ->
  let R := roundToPageSize P 32 in
  exists base r w1 w',
    sys_mmap os w (2 * P + R) = Some base /\
    sys_getrandom os w1 32 = Some r /\
    createCanary P os w = Returned (getBytes (base + P + R - 32) 32, w') /\
    (forall a, base <= a < base + P -> readable w' a = false /\ writable w' a = false) /\
    (forall a, base + P + R <= a < base + 2 * P + R ->
               readable w' a = false /\ writable w' a = false) /\
    (forall a, base + P <= a < base + P + R ->
               locked w' a = true /\ readable w' a = true /\ writable w' a = false) /\
    (forall i, 0 <= i < 32 -> mem w' (base + P + R - 32 + i) = r i) /\
    (forall a, base <= a < base + 2 * P + R ->
               ~ (base + P + R - 32 <= a < base + P + R) -> mem w' a = 0) /\
    (forall a, ~ (base <= a < base + 2 * P + R) ->
               mem w' a = mem w a /\ prot w' a = prot w a /\ locked w' a = locked w a).
Proof.
  intros HP Hc R.
  assert (HR : 32 <= R <= 32 + (P - 1)).
  { apply roundToPageSize_bounds; unfold in_int, int_min, int_max; lia. }
  destruct (coop_mmap os Hc w (2 * P + R)) as (base & Hm & Hb0 & Hb1);
    [unfold int_max; lia |].
  remember (createCanary P os w) as out eqn:E.
  unfold createCanary in E; fold R in E.
  rewrite (int_mul_id 2 P), (int_add_id (2 * P) R), (int_add_id P R),
    (int_sub_id (P + R) 32) in E by (unfold in_int, int_min, int_max; lia).
  unfold bind at 1 in E.
  destruct (Alloc_spec os _ _ _ Hm) as (w1 & Hrun & Hmem1 & Hprot1 & Hlock1 & _ & Hg1).
  rewrite Hrun in E; clear Hrun.
  run_pure E slice_lo_hi_ok.
  run_Lock E Hc.
  unfold slice_hi in E. run_pure E slice_lo_hi_ok.
  run_Protect E Hc.
  unfold slice_lo in E. run_pure E slice_lo_hi_ok.
  run_Protect E Hc.
  run_pure E addr_of_index_ok.
  unfold bind at 1 in E.
  match type of E with
  | context [fillRandBytes os ?b ?w0] =>
      destruct (fillRandBytes_spec os Hc b w0)
        as (r & w5 & Hr & Hrun & Hmem5 & Hprot5 & Hlock5 & Hg5)
  end.
  { apply range_all_spec. cbn [s_ptr s_len getBytes]. intros a Ha.
    unfold writable. unfold_fields. unfold set_range. range_lia. }
  rewrite Hrun in E; clear Hrun.
  run_pure E slice_lo_hi_ok.
  run_Protect E Hc.
  unfold ret in E. subst out.
  replace (base + (P + R - 32)) with (base + P + R - 32) in * by lia.
  do 4 eexists.
  split; [exact Hm |]. split; [exact Hr |]. split; [reflexivity |].
  unfold readable, writable. unfold_fields.
  unfold set_range, getBytes.
  repeat split; intros; range_lia.
Qed.

Lemma createCanary_layout_witness :
  exists c w', createCanary 4096 os_granting world_empty = Returned (c, w') /\
               c = mkSlice (65536 + 4096 + 4096 - 32) 32 32.
Proof.
  destruct (createCanary_layout 4096 os_granting world_empty
              ltac:(lia) os_granting_cooperative)
    as (base & r & w1 & w' & Hm & _ & Hrun & _).
  exists (getBytes (base + 4096 + roundToPageSize 4096 32 - 32) 32), w'.
  split; [exact Hrun |].
  cbn in Hm. injection Hm as <-. reflexivity.
Defined.

(** Consume a [Protect_err] followed by its [check]. *)
Ltac run_Protect_err E Hc :=
  unfold bind at 1 in E; unfold Part000.Protect_err at 1 in E;
  match type of E with
  | context [Protect ?os ?b ?rd ?wr ?w0] =>
      run_with E (Protect os b rd wr w0) (Protect_spec os Hc b rd wr w0)
  end;
  unfold bind at 1 in E; unfold Part000.check at 1, ret at 1 in E.

(** X6: the second revision of [createCanary], which protects the guards
    before it locks the inner pages, leaves the same region behind on a
    kernel that grants the calls. *)
Lemma createCanary_part000_layout (P : Z) (os : kernel) (w : world) :
  0 < P <= 2 ^ 60 -> cooperative os ->
  let R := roundToPageSize P 32 in
  exists base r w1 w',
    sys_mmap os w (2 * P + R) = Some base /\
    sys_getrandom os w1 32 = Some r /\
    Part000.createCanary P os w = Returned (getBytes (base + P + R - 32) 32, w') /\
    (forall a, base <= a < base + P -> readable w' a = false /\ writable w' a = false) /\
    (forall a, base + P + R <= a < base + 2 * P + R ->
               readable w' a = false /\ writable w' a = false) /\
    (forall a, base + P <= a < base + P + R ->
               locked w' a = true /\ readable w' a = true /\ writable w' a = false) /\
    (forall i, 0 <= i < 32 -> mem w' (base + P + R - 32 + i) = r i) /\
    (forall a, base <= a < base + 2 * P + R ->
               ~ (base + P + R - 32 <= a < base + P + R) -> mem w' a = 0) /\
    (forall a, ~ (base <= a < base + 2 * P + R) ->
               mem w' a = mem w a /\ prot w' a = prot w a /\ locked w' a = locked w a).
Proof.
  intros HP Hc R.
  assert (HR : 32 <= R <= 32 + (P - 1)).
  { apply roundToPageSize_bounds; unfold in_int, int_min, int_max; lia. }
  destruct (coop_mmap os Hc w (2 * P + R)) as (base & Hm & Hb0 & Hb1);
    [unfold int_max; lia |].
  remember (Part000.createCanary P os w) as out eqn:E.
  unfold Part000.createCanary in E; fold R in E.
  rewrite (int_mul_id 2 P), (int_add_id (2 * P) R), (int_add_id P R),
    (int_sub_id (P + R) 32) in E by (unfold in_int, int_min, int_max; lia).
  unfold bind at 1 in E. unfold Part000.Alloc_err at 1 in E.
  destruct (Alloc_spec os _ _ _ Hm) as (w1 & Hrun & Hmem1 & Hprot1 & Hlock1 & _ & Hg1).
  rewrite Hrun in E; clear Hrun.
  unfold bind at 1 in E. cbn [fst snd] in E. unfold Part000.check at 1, ret at 1 in E.
  unfold slice_hi in E. run_pure E slice_lo_hi_ok.
  run_Protect_err E Hc.
  unfold slice_lo in E. run_pure E slice_lo_hi_ok.
  run_Protect_err E Hc.
  run_pure E slice_lo_hi_ok.
  unfold bind at 1 in E; unfold Part000.Lock_err at 1 in E.
  match type of E with
  | context [Lock ?os ?b ?w0] => run_with E (Lock os b w0) (Lock_spec os Hc b w0)
  end.
  unfold bind at 1 in E; unfold Part000.check at 1, ret at 1 in E.
  run_pure E addr_of_index_ok.
  unfold bind at 1 in E.
  match type of E with
  | context [fillRandBytes os ?b ?w0] =>
      destruct (fillRandBytes_spec os Hc b w0)
        as (r & w5 & Hr & Hrun & Hmem5 & Hprot5 & Hlock5 & Hg5)
  end.
  { apply range_all_spec. cbn [s_ptr s_len getBytes]. intros a Ha.
    unfold writable. unfold_fields. unfold set_range. range_lia. }
  rewrite Hrun in E; clear Hrun.
  run_pure E slice_lo_hi_ok.
  run_Protect_err E Hc.
  unfold ret in E. subst out.
  replace (base + (P + R - 32)) with (base + P + R - 32) in * by lia.
  do 4 eexists.
  split; [exact Hm |]. split; [exact Hr |]. split; [reflexivity |].
  unfold readable, writable. unfold_fields.
  unfold set_range, getBytes.
  repeat split; intros; range_lia.
Qed.

(** ** The guarded region of a buffer *)

(** In a guarded layout nothing overflows, and [getAllMemory] finds the
    region from the address of the buffer. *)
Lemma getAllMemory_spec (P : Z) (b : container) (region : slice) (w : world) :
  0 < P -> 1 <= s_len (buffer b) -> guarded_layout P region b ->
  int_add (s_len (buffer b)) 32 = s_len (buffer b) + 32 /\
  getAllMemory P b w
  = Returned (mkSlice (s_ptr region) (s_len region) (s_len region), w).
Proof.
  intros HP Hn (Hr0 & Hr1 & Hr2 & Hlen & Hpad & Hbuf).
  cbv zeta in Hlen, Hpad, Hbuf.
  set (n := s_len (buffer b)) in *.
  assert (Hsum : int_add n 32 = n + 32).
  { apply int_add_id. unfold in_int, int_min, int_max in *. lia. }
  split; [exact Hsum |].
  unfold getAllMemory. fold n.
  set (R := roundToPageSize P (int_add n 32)) in *.
  rewrite (int_sub_id R n), (int_add_id (R - n) P), (int_mul_id P 2),
    (int_add_id (P * 2) R) by (unfold in_int, int_min, int_max in *; lia).
  unfold bind. rewrite addr_of_index_ok by (fold n; lia).
  unfold uintptr_sub, uintptr_of_int.
  rewrite (wrap_uintptr_id (R - n + P)) by (unfold int_max in *; lia).
  rewrite wrap_uintptr_id by lia.
  unfold ret, getBytes. do 3 f_equal; lia.
Qed.

(** C7: for a container whose buffer has length [n >= 1] and sits in a
    guarded region, [getAllMemory] returns the slice of length (and
    capacity) [2*P + roundToPageSize (n + 32)] that starts
    [(roundToPageSize (n + 32) - n) + P] bytes before the buffer, which is
    the region itself; the last byte of the buffer is the last byte of the
    inner page set, and the [P] bytes after it, up to the end of the slice
    returned, are the rear guard. *)
Theorem getAllMemory_region (P : Z) (b : container) (region : slice) (w : world) :
  0 < P -> 1 <= s_len (buffer b) -> guarded_layout P region b ->
  let n := s_len (buffer b) in
  let R := roundToPageSize P (n + 32) in
  exists m,
    getAllMemory P b w = Returned (m, w) /\
    s_len m = 2 * P + R /\ s_cap m = 2 * P + R /\
    s_ptr m = s_ptr (buffer b) - ((R - n) + P) /\
    s_ptr m = s_ptr region /\
    s_ptr (buffer b) + n - 1 = s_ptr m + P + R - 1 /\
    s_ptr (buffer b) + n + P = s_ptr m + s_len m.
Proof.
  intros HP Hn Hlay n R.
  destruct (getAllMemory_spec P b region w HP Hn Hlay) as [Hsum Hrun].
  destruct Hlay as (Hr0 & Hr1 & Hr2 & Hlen & Hpad & Hbuf).
  cbv zeta in Hlen, Hpad, Hbuf. fold n in Hsum, Hlen, Hpad, Hbuf.
  rewrite Hsum in Hlen, Hpad, Hbuf. fold R in Hlen, Hpad, Hbuf.
  eexists. split; [exact Hrun |]. cbn [s_len s_cap s_ptr].
  repeat split; lia.
Qed.

Lemma getAllMemory_region_witness :
  getAllMemory 4096 (mkContainer (mkSlice 73720 8 8) false false) world_empty
  = Returned (mkSlice 65536 12288 12288, world_empty).
Proof.
  destruct (getAllMemory_region 4096 (mkContainer (mkSlice 73720 8 8) false false)
              (mkSlice 65536 12288 12288) world_empty)
    as (m & Hrun & Hl & Hc & _ & Hp & _); [lia | cbn; lia | |].
  - unfold guarded_layout; cbn [buffer s_len s_ptr].
    change (roundToPageSize 4096 (int_add 8 32)) with 4096.
    unfold int_max. repeat split; lia.
  - rewrite Hrun. destruct m as [p l c]. cbn [buffer s_len s_cap s_ptr] in *.
    change (roundToPageSize 4096 (8 + 32)) with 4096 in *.
    subst. reflexivity.
Defined.

(** ** Locking and unlocking *)

(** C9, as stated, does not hold: with a kernel that refuses [munlock],
    [Unlock] panics on the first region it is given. *)
Lemma Unlock_failure_is_fatal_example :
  sys_munlock os_refusing_locks world_empty (mkSlice 65536 4096 4096) = false /\
  Unlock os_refusing_locks (mkSlice 65536 4096 4096) world_empty
  = Panicked "memguard.memcall.Unlock(): could not free lock" /\
  ~ Unlock_proceeds_on_failure.
Proof.
  split; [reflexivity |]. split; [reflexivity |].
  intros H.
  destruct (H os_refusing_locks (mkSlice 65536 4096 4096) world_empty eq_refl)
    as [w' Hw'].
  discriminate Hw'.
Qed.

(** C9, amended: a refused [munlock] makes [Unlock] panic, exactly as a
    refused [mlock] makes [Lock] panic; neither returns. *)
Theorem Unlock_failure_panics (os : kernel) (b : slice) (w : world) :
  (sys_munlock os w b = false ->
   Unlock os b w = Panicked "memguard.memcall.Unlock(): could not free lock") /\
  ((forall w1, sys_mlock os w1 b = false) ->
   Lock os b w = Panicked "memguard.memcall.Lock(): could not aquire lock").
Proof.
  split.
  - intros H. unfold Unlock. now rewrite H.
  - intros H. unfold Lock. now rewrite H.
Qed.

Lemma Unlock_failure_panics_witness :
  Unlock os_refusing_locks (mkSlice 65536 4096 4096) world_empty
  = Panicked "memguard.memcall.Unlock(): could not free lock" /\
  Lock os_refusing_locks (mkSlice 65536 4096 4096) world_empty
  = Panicked "memguard.memcall.Lock(): could not aquire lock".
Proof.
  destruct (Unlock_failure_panics os_refusing_locks (mkSlice 65536 4096 4096)
              world_empty) as [HU HL].
  split; [apply HU; reflexivity | apply HL; intros w1; reflexivity].
Defined.

(** ** The comparison of [EqualTo] *)

Lemma ct_loop_zero_iff (x : list byte) :
  forall (y : list byte) (v : Z),
    length x = length y ->
    (ct_loop x y v = 0 <-> v = 0 /\ x = y).
Proof.
  induction x as [| a x IH]; intros [| b y] v Hlen;
    try discriminate Hlen; cbn [ct_loop].
  - intuition.
  - injection Hlen as Hlen. rewrite (IH y _ Hlen).
    rewrite Z.lor_eq_0_iff, Z.lxor_eq_0_iff. split.
    + intros [[Hv Hab] Hxy]. subst. auto.
    + intros [Hv Heq]. injection Heq as -> ->. auto.
Qed.

Lemma constantTimeCompare_true_iff (x y : list byte) :
  constantTimeCompare x y = true <-> x = y.
Proof.
  unfold constantTimeCompare.
  destruct (Nat.eqb_spec (length x) (length y)) as [Hlen | Hlen].
  - rewrite Z.eqb_eq, (ct_loop_zero_iff x y 0 Hlen). intuition.
  - split; [discriminate | intros ->; contradiction].
Qed.


(** ** Stores and copies *)

Lemma for_each_wipe (buf : slice) :
  forall (l : list Z) (w : world),
    (forall i, In i l -> 0 <= i < s_len buf /\ writable w (s_ptr buf + i) = true) ->
    exists w',
      for_each l (fun i => store_index buf i 0) w = Returned (tt, w') /\
      (forall a, mem w' a = if existsb (fun i => a =? s_ptr buf + i) l
                            then 0 else mem w a) /\
      prot w' = prot w /\ locked w' = locked w /\ same_globals w w'.
Proof.
  induction l as [| i l IH]; intros w Hl.
  - exists w. cbn. repeat split.
  - destruct (Hl i (or_introl eq_refl)) as [Hi Hw].
    cbn [for_each]. unfold bind at 1. unfold store_index at 1. unfold bind at 1.
    rewrite addr_of_index_ok by lia. rewrite Hw.
    set (w1 := with_mem w _).
    destruct (IH w1) as (w' & Hrun & Hmem & Hprot & Hlock & Hglob).
    { intros j Hj. destruct (Hl j (or_intror Hj)) as [Hj1 Hj2].
      split; [exact Hj1 | exact Hj2]. }
    exists w'. split; [exact Hrun |]. split.
    + intros a. rewrite Hmem. cbn [existsb].
      destruct (existsb _ l).
      * now rewrite orb_true_r.
      * rewrite orb_false_r. reflexivity.
    + split; [rewrite Hprot; reflexivity |].
      split; [rewrite Hlock; reflexivity |]. exact Hglob.
Qed.

Lemma wipeBytes_spec (buf : slice) (w : world) :
  range_all (writable w) buf = true ->
  exists w',
    wipeBytes buf w = Returned (tt, w') /\
    (forall a, mem w' a = set_range (mem w) buf 0 a) /\
    prot w' = prot w /\ locked w' = locked w /\ same_globals w w'.
Proof.
  intros Hw. rewrite range_all_spec in Hw.
  destruct (for_each_wipe buf (seqZ 0 (s_len buf)) w)
    as (w' & Hrun & Hmem & Hrest).
  { intros i Hi. apply list_elem_of_In, elem_of_seqZ in Hi.
    split; [lia | apply Hw; lia]. }
  exists w'. split; [exact Hrun |]. split; [| exact Hrest].
  intros a. rewrite Hmem. unfold set_range.
  destruct (in_range buf a) eqn:Ein.
  - apply in_range_true in Ein.
    replace (existsb _ _) with true; [reflexivity |].
    symmetry. apply existsb_exists. exists (a - s_ptr buf). split.
    + apply list_elem_of_In, elem_of_seqZ. lia.
    + apply Z.eqb_eq. lia.
  - apply in_range_false in Ein.
    replace (existsb _ _) with false; [reflexivity |].
    symmetry. apply not_true_is_false. intros Hex.
    apply existsb_exists in Hex. destruct Hex as (i & Hi & Hai).
    apply list_elem_of_In, elem_of_seqZ in Hi. apply Z.eqb_eq in Hai. lia.
Qed.

Lemma copy_spec (dst src : slice) (w : world) :
  let n := Z.min (s_len dst) (s_len src) in
  range_all (readable w) (mkSlice (s_ptr src) n n) = true ->
  range_all (writable w) (mkSlice (s_ptr dst) n n) = true ->
  exists w',
    copy dst src w = Returned (n, w') /\
    (forall a, mem w' a = if in_range (mkSlice (s_ptr dst) n n) a
                          then mem w (s_ptr src + (a - s_ptr dst)) else mem w a) /\
    prot w' = prot w /\ locked w' = locked w /\ same_globals w w'.
Proof.
  intros n Hr Hw. unfold copy. fold n. rewrite Hr, Hw. cbn [andb].
  eexists. split; [reflexivity |]. cbn. repeat split.
Qed.

(** A sub-range of a range with property [p] has it too. *)
Lemma range_all_sub p (s t : slice) :
  s_ptr s <= s_ptr t -> s_ptr t + s_len t <= s_ptr s + s_len s ->
  range_all p s = true -> range_all p t = true.
Proof.
  intros H1 H2. rewrite !range_all_spec. intros H a Ha. apply H. lia.
Qed.

Lemma bytes_of_eq_iff (w : world) (s t : slice) :
  0 <= s_len s -> 0 <= s_len t ->
  (bytes_of w s = bytes_of w t <->
   s_len s = s_len t /\
   forall i, 0 <= i < s_len s -> mem w (s_ptr s + i) = mem w (s_ptr t + i)).
Proof.
  intros Hs Ht. unfold bytes_of. split.
  - intros Heq.
    assert (Hlen : s_len s = s_len t).
    { apply (f_equal length) in Heq. rewrite !length_map, !length_seqZ in Heq. lia. }
    split; [exact Hlen |]. intros i Hi.
    apply (f_equal (fun l => l !! Z.to_nat i)) in Heq.
    rewrite !list_lookup_fmap in Heq.
    rewrite (lookup_seqZ_lt (s_ptr s) (s_len s) (Z.to_nat i)) in Heq by lia.
    rewrite (lookup_seqZ_lt (s_ptr t) (s_len t) (Z.to_nat i)) in Heq by lia.
    cbn in Heq. rewrite Z2Nat.id in Heq by lia. congruence.
  - intros [Hlen Hpt]. apply list_eq. intros i.
    rewrite !list_lookup_fmap.
    destruct (decide (Z.of_nat i < s_len s)) as [Hi | Hi].
    + rewrite (lookup_seqZ_lt (s_ptr s) (s_len s) i) by lia.
      rewrite (lookup_seqZ_lt (s_ptr t) (s_len t) i) by lia.
      cbn. f_equal. apply Hpt. lia.
    + rewrite (lookup_seqZ_ge (s_ptr s) (s_len s) i) by lia.
      rewrite (lookup_seqZ_ge (s_ptr t) (s_len t) i) by lia.
      reflexivity.
Qed.

(** ** Operations on a live buffer *)

(** C3: on a live, writable buffer, [Move src] first stores the first
    [min (len data) (len src)] bytes of [src] in the data (nothing else
    changes), then sets every one of the [len src] bytes of [src] to zero
    (nothing else changes), and returns no error. *)
Theorem Move_copies_then_wipes (w : world) (b : LockedBuffer) (c : container)
    (src : slice) :
  containers w !! b = Some c -> destroyed c = false -> readOnly c = false ->
  range_all (writable w) (buffer c) = true ->
  range_all (readable w) src = true -> range_all (writable w) src = true ->
  let n := Z.min (s_len (buffer c)) (s_len src) in
  exists w1 w',
    Copy b src w = Returned (None, w1) /\
    (forall i, 0 <= i < n -> mem w1 (s_ptr (buffer c) + i) = mem w (s_ptr src + i)) /\
    (forall a, ~ (s_ptr (buffer c) <= a < s_ptr (buffer c) + n) -> mem w1 a = mem w a) /\
    wipeBytes src w1 = Returned (tt, w') /\
    Move b src w = Returned (None, w') /\
    (forall i, 0 <= i < s_len src -> mem w' (s_ptr src + i) = 0) /\
    (forall a, ~ (s_ptr src <= a < s_ptr src + s_len src) -> mem w' a = mem w1 a) /\
    containers w' = containers w.
Proof.
  intros Hb Hlive Hrw Hwd Hrs Hws n.
  destruct (copy_spec (buffer c) src w) as (w1 & Hcopy & Hmem1 & Hprot1 & _ & Hg1).
  { eapply range_all_sub; [| | exact Hrs]; cbn [s_ptr s_len]; lia. }
  { eapply range_all_sub; [| | exact Hwd]; cbn [s_ptr s_len]; lia. }
  fold n in Hcopy, Hmem1.
  assert (HCopy : Copy b src w = Returned (None, w1)).
  { unfold Copy, bind, load. rewrite Hb, Hlive, Hrw, Hcopy. reflexivity. }
  destruct (wipeBytes_spec src w1) as (w' & Hwipe & Hmem' & _ & _ & Hg').
  { unfold writable in *. rewrite Hprot1. exact Hws. }
  exists w1, w'. split; [exact HCopy |].
  split. { intros i Hi. rewrite Hmem1. range_lia. }
  split. { intros a Ha. rewrite Hmem1. range_lia. }
  split; [exact Hwipe |].
  split. { unfold Move, bind. rewrite HCopy. rewrite Hwipe. reflexivity. }
  split. { intros i Hi. rewrite Hmem'. unfold set_range. range_lia. }
  split. { intros a Ha. rewrite Hmem'. unfold set_range. range_lia. }
  destruct Hg1 as [Hc1 _], Hg' as [Hc' _]. congruence.
Qed.

Lemma Move_copies_then_wipes_witness :
  exists w', Move 0%nat (mkSlice 400 16 16) world_test = Returned (None, w') /\
             (forall i, 0 <= i < 16 -> mem w' (400 + i) = 0).
Proof.
  destruct (Move_copies_then_wipes world_test 0%nat
              (mkContainer (mkSlice 100 4 4) false false) (mkSlice 400 16 16))
    as (w1 & w' & _ & _ & _ & _ & Hmove & Hzero & _);
    try reflexivity.
  exists w'. split; [exact Hmove | exact Hzero].
Defined.

(** C4: on a live buffer, [EqualTo other] returns [true] exactly when the
    data and [other] are the same sequence of bytes, that is, have the same
    length and the same byte at every position; it returns no error and
    changes nothing. *)
Theorem EqualTo_iff_same_bytes (w : world) (b : LockedBuffer) (c : container)
    (other : slice) :
  containers w !! b = Some c -> destroyed c = false ->
  0 <= s_len (buffer c) -> 0 <= s_len other ->
  range_all (readable w) (buffer c) = true ->
  range_all (readable w) other = true ->
  exists r,
    EqualTo b other w = Returned ((r, None), w) /\
    (r = true <-> bytes_of w (buffer c) = bytes_of w other) /\
    (r = true <->
     s_len (buffer c) = s_len other /\
     forall i, 0 <= i < s_len other ->
               mem w (s_ptr (buffer c) + i) = mem w (s_ptr other + i)).
Proof.
  intros Hb Hlive Hn Hm Hrd Hro.
  exists (constantTimeCompare (bytes_of w (buffer c)) (bytes_of w other)).
  split.
  - unfold EqualTo, bind, load, read_bytes. rewrite Hb, Hlive, Hrd, Hro. reflexivity.
  - rewrite constantTimeCompare_true_iff. split; [tauto |].
    rewrite (bytes_of_eq_iff w (buffer c) other Hn Hm).
    split; intros [Hlen Hpt]; (split; [exact Hlen |]); intros i Hi; apply Hpt; lia.
Qed.

Lemma EqualTo_iff_same_bytes_witness :
  EqualTo 0%nat (mkSlice 200 4 4) world_test = Returned ((true, None), world_test) /\
  EqualTo 0%nat (mkSlice 300 5 5) world_test = Returned ((false, None), world_test).
Proof.
  destruct (EqualTo_iff_same_bytes world_test 0%nat
              (mkContainer (mkSlice 100 4 4) false false) (mkSlice 200 4 4))
    as (r & Hrun & Hiff & _); try reflexivity; try (cbn; lia).
  split.
  - rewrite Hrun. destruct r; [reflexivity |].
    assert (false = true) by (apply Hiff; reflexivity). discriminate.
  - reflexivity.
Defined.


(** ** Creating a buffer *)

(** What [New n] leaves behind on a kernel that grants its requests and
    hands out memory the process had not mapped: the region, its
    protections and locks, the canary copy in front of the data, and the
    new container at the end of the heap and of the registry. *)
Lemma New_spec (P : Z) (os : kernel) (w : world) (n : Z) :
  0 < P -> cooperative os -> 0 < n ->
  n + 32 + (P - 1) <= int_max ->
  2 * P + roundToPageSize P (n + 32) <= int_max ->
  range_all (readable w) (canary w) = true ->
  let R := roundToPageSize P (n + 32) in
  (forall base a, sys_mmap os w (2 * P + R) = Some base ->
                  base <= a < base + (2 * P + R) -> prot w a = None) ->
  exists base w',
    sys_mmap os w (2 * P + R) = Some base /\
    0 <= base /\ base + (2 * P + R) <= 2 ^ 64 /\
    New P os n w = Returned (inl (length (containers w)), w') /\
    containers w' =
      containers w ++ [mkContainer (mkSlice (base + P + (R - n)) n n) false false] /\
    allLockedBuffers w' = allLockedBuffers w ++ [length (containers w)] /\
    canary w' = canary w /\
    (forall a, ~ (base <= a < base + (2 * P + R)) ->
               prot w' a = prot w a /\ mem w' a = mem w a) /\
    (forall a, base <= a < base + P \/ base + P + R <= a < base + (2 * P + R) ->
               prot w' a = Some PROT_NONE) /\
    (forall a, base + P <= a < base + P + R ->
               prot w' a = Some (Z.lor PROT_READ PROT_WRITE) /\ locked w' a = true) /\
    (forall i, 0 <= i < Z.min 32 (s_len (canary w)) ->
               mem w' (base + P + (R - n) - 32 + i) = mem w (s_ptr (canary w) + i)) /\
    (forall i, 0 <= i < n -> mem w' (base + P + (R - n) + i) = 0).
Proof.
  intros HP Hc Hn Hfit Hfit2 HK R Hfresh. fold R in Hfit2.
  assert (HR : n + 32 <= R <= n + 32 + (P - 1)).
  { apply roundToPageSize_bounds; unfold in_int, int_min, int_max in *; lia. }
  destruct (coop_mmap os Hc w (2 * P + R)) as (base & Hm & Hb0 & Hb1);
    [unfold int_max in *; lia |].
  specialize (Hfresh base).
  remember (New P os n w) as out eqn:E.
  unfold New in E.
  destruct (Z.leb_spec n 0) as [Hle | _]; [lia |].
  rewrite (int_add_id n 32) in E by (unfold in_int, int_min, int_max in *; lia).
  fold R in E.
  rewrite (int_mul_id 2 P), (int_add_id (2 * P) R), (int_add_id P R),
    (int_sub_id R n), (int_sub_id (R - n) 32) in E
    by (unfold in_int, int_min, int_max in *; lia).
  unfold bind at 1 in E.
  destruct (Alloc_spec os _ _ _ Hm) as (w1 & Hrun & Hmem1 & Hprot1 & Hlock1 & _ & Hg1).
  rewrite Hrun in E; clear Hrun. cbn [s_ptr s_len s_cap] in E.
  run_Lock E Hc.
  unfold slice_hi in E. run_pure E slice_lo_hi_ok.
  run_Protect E Hc.
  unfold slice_lo in E. run_pure E slice_lo_hi_ok.
  run_Protect E Hc.
  unfold getBytes in *. run_pure E slice_lo_hi_ok.
  unfold bind at 1 in E. unfold bind at 1 in E.
  assert (Hg3 : same_globals w w3).
  { eauto using same_globals_trans. }
  destruct Hg3 as (HC3 & HR3 & HK3).
  rewrite HK3 in E.
  assert (Hkeep : forall a, s_ptr (canary w) <= a < s_ptr (canary w) + s_len (canary w) ->
                            ~ (base <= a < base + (2 * P + R))).
  { intros a Ha Hin. rewrite range_all_spec in HK. specialize (HK a Ha).
    unfold readable in HK. rewrite (Hfresh a Hm Hin) in HK. discriminate HK. }
  match type of E with
  | context [copy ?d ?s ?w0] =>
      destruct (copy_spec d s w0) as (w4 & Hrun & Hmem4 & Hprot4 & Hlock4 & Hg4)
  end.
  { apply range_all_spec. cbn [s_ptr s_len]. intros a Ha.
    specialize (Hkeep a ltac:(lia)).
    rewrite range_all_spec in HK. specialize (HK a ltac:(lia)).
    unfold readable in *. unfold_fields. unfold set_range.
    range_lia. exact HK. }
  { apply range_all_spec. cbn [s_ptr s_len]. intros a Ha.
    unfold writable. unfold_fields. unfold set_range. range_lia. }
  rewrite Hrun in E; clear Hrun.
  run_pure E slice_lo_hi_ok.
  unfold bind at 1 in E. unfold bind at 1 in E. unfold ret in E.
  cbn [containers with_containers allLockedBuffers] in E.
  destruct Hg4 as (HC4 & HR4 & HK4).
  rewrite HC4, HC3, HR4, HR3 in E.
  replace (R - (R - n)) with n in E by lia.
  subst out.
  exists base. eexists.
  split; [exact Hm |]. split; [exact Hb0 |]. split; [exact Hb1 |].
  split; [reflexivity |].
  cbn [containers allLockedBuffers canary mem prot locked with_registry with_containers].
  split; [reflexivity |]. split; [reflexivity |].
  split; [congruence |].
  cbn [s_ptr s_len] in Hmem4.
  replace (R - n - (R - n - 32)) with 32 in Hmem4 by lia.
  split.
  { intros a Ha. rewrite Hmem4. unfold_fields. unfold set_range. split; range_lia. }
  split.
  { intros a Ha. unfold_fields. unfold set_range. range_lia. }
  split.
  { intros a Ha. unfold_fields. unfold set_range. split; range_lia. }
  split.
  { intros i Hi. rewrite Hmem4. specialize (Hkeep (s_ptr (canary w) + i) ltac:(lia)).
    range_lia.
    replace (base + P + (R - n) - 32 + i - (base + P + (R - n - 32))) with i by lia.
    unfold_fields. unfold set_range. range_lia. }
  intros i Hi. rewrite Hmem4. unfold_fields. unfold set_range. range_lia.
Qed.





(** ** Destroying a buffer *)

Lemma bytes_of_ext (w w' : world) (s t : slice) :
  s_ptr s = s_ptr t -> s_len s = s_len t -> mem w = mem w' ->
  bytes_of w s = bytes_of w' t.
Proof. intros Hp Hl Hm. unfold bytes_of. now rewrite Hp, Hl, Hm. Qed.

(** Consume a [wipeBytes]; the first goal left is that the range is writable. *)
Ltac run_wipe E :=
  unfold bind at 1 in E;
  match type of E with
  | context [wipeBytes ?b ?w0] =>
      let w1 := fresh "w" in
      let Hrun := fresh "Hrun" in
      destruct (wipeBytes_spec b w0) as (w1 & Hrun & ?Hwiped & ?Hprot & ?Hlocked & ?Hglob);
      [| rewrite Hrun in E; clear Hrun]
  end.

(** What [Destroy] does to a live buffer that sits in a guarded region
    with its canary copy intact, on a kernel that grants the requests. *)
Lemma Destroy_spec (P : Z) (os : kernel) (w : world) (b : LockedBuffer)
    (c : container) (region : slice) :
  0 < P -> cooperative os ->
  containers w !! b = Some c -> destroyed c = false ->
  1 <= s_len (buffer c) -> guarded_layout P region c ->
  range_all (readable w) (canary w) = true ->
  bytes_of w (mkSlice (s_ptr (buffer c) - 32) 32 32) = bytes_of w (canary w) ->
  exists w',
    Destroy P os b w = Returned (tt, w') /\
    containers w' = <[b := mkContainer nil_slice false true]> (containers w) /\
    allLockedBuffers w'
    = List.filter (fun p => negb (Nat.eqb p b)) (allLockedBuffers w) /\
    canary w' = canary w /\
    (forall a, s_ptr region <= a < s_ptr region + s_len region ->
               prot w' a = None /\ locked w' a = false) /\
    (forall a, s_ptr (buffer c) - 32 <= a < s_ptr (buffer c) + s_len (buffer c) ->
               mem w' a = 0).
Proof.
  intros HP Hc Hb Hlive Hn Hlay HK Hcanary.
  pose proof Hlay as (Hr0 & Hr1 & Hr2 & Hlen & Hpad & Hbuf).
  cbv zeta in Hlen, Hpad, Hbuf.
  set (n := s_len (buffer c)) in *.
  set (R := roundToPageSize P (int_add n 32)) in *.
  remember (Destroy P os b w) as out eqn:E.
  unfold Destroy in E. unfold bind at 1 in E. unfold load at 1 in E.
  rewrite Hb, Hlive in E.
  unfold bind at 1 in E.
  destruct (getAllMemory_spec P c region w HP Hn Hlay) as [Hsum Hgam].
  rewrite Hgam in E.
  unfold bind at 1 in E. unfold innerPages at 1 in E. unfold bind at 1 in E.
  rewrite Hgam in E. unfold ret at 1 in E. fold n R in E.
  unfold getBytes in E. cbn [s_ptr s_len s_cap] in E.
  run_Protect E Hc.
  rewrite (int_sub_id R n), (int_sub_id (R - n) 32) in E
    by (unfold in_int, int_min, int_max in *; lia).
  run_pure E slice_lo_hi_ok.
  unfold bind at 1 in E.
  unfold bind at 1 in E. unfold read_bytes at 1 in E.
  set (slot := mkSlice (s_ptr region + P + (R - n - 32)) _ _) in *.
  assert (Hslot : s_ptr slot = s_ptr (buffer c) - 32 /\ s_len slot = 32)
    by (cbn [slot s_ptr s_len]; lia).
  destruct Hslot as [Hslot_ptr Hslot_len].
  assert (Hrs : range_all (readable w0) slot = true).
  { apply range_all_spec. intros a Ha. unfold readable. rewrite Hprot.
    unfold set_range. range_lia. }
  rewrite Hrs in E.
  pose proof Hglob as (HC0 & HR0 & HK0).
  unfold bind at 1 in E. unfold read_bytes at 1 in E. rewrite HK0 in E.
  assert (HrK : range_all (readable w0) (canary w) = true).
  { apply range_all_spec. intros a Ha. rewrite range_all_spec in HK.
    specialize (HK a Ha). unfold readable in *. rewrite Hprot.
    unfold set_range. range_lia. exact HK. }
  rewrite HrK in E.
  rewrite bool_decide_eq_true_2 in E.
  2:{ transitivity (bytes_of w (canary w)).
      - rewrite <- Hcanary. apply bytes_of_ext; [| | exact Hmem]; cbn [s_ptr s_len]; lia.
      - symmetry. now apply bytes_of_ext. }
  unfold bind at 1 in E. unfold ret at 1 in E.
  run_wipe E.
  { apply range_all_spec. intros a Ha. unfold writable. rewrite Hprot.
    unfold set_range. range_lia. }
  run_wipe E.
  { apply range_all_spec. intros a Ha. unfold writable. rewrite Hprot0, Hprot.
    unfold set_range. fold n in Ha. range_lia. }
  run_Unlock E Hc.
  run_Protect E Hc.
  run_Free E Hc.
  unfold bind at 1 in E. unfold store at 1 in E.
  cbn [allLockedBuffers with_containers containers] in E.
  subst out. eexists. split; [reflexivity |].
  cbn [containers allLockedBuffers canary mem prot locked with_registry with_containers].
  assert (Hg5 : same_globals w w5) by eauto 10 using same_globals_trans.
  destruct Hg5 as (HC5 & HR5 & HK5).
  split; [now rewrite HC5 |]. split; [now rewrite HR5 |]. split; [exact HK5 |].
  split.
  - intros a Ha. rewrite Hprot4, Hlocked4. unfold set_range. split; range_lia.
  - intros a Ha. rewrite Hmem2, Hmem1, Hmem0, Hwiped0. unfold set_range.
    destruct (in_range (buffer c) a) eqn:Ein; [reflexivity |].
    apply in_range_false in Ein. fold n in Ein.
    rewrite Hwiped. unfold set_range.
    destruct (in_range slot a) eqn:Eslot; [reflexivity |].
    apply in_range_false in Eslot. lia.
Qed.

(** On a destroyed buffer every operation but [Destroy] answers
    [ErrDestroyed], and none changes anything. *)
Lemma destroyed_refuses (P : Z) (os : kernel) (w : world) (b : LockedBuffer)
    (c : container) :
  containers w !! b = Some c -> destroyed c = true ->
  (forall src, Copy b src w = Returned (Some ErrDestroyed, w)) /\
  (forall src, Move b src w = Returned (Some ErrDestroyed, w)) /\
  MarkAsReadOnly P os b w = Returned (Some ErrDestroyed, w) /\
  MarkAsReadWrite P os b w = Returned (Some ErrDestroyed, w) /\
  (forall other, EqualTo b other w = Returned ((false, Some ErrDestroyed), w)) /\
  (forall offset size, Trim P os b offset size w = Returned (inr ErrDestroyed, w)) /\
  Destroy P os b w = Returned (tt, w).
Proof.
  intros Hb Hd.
  assert (HCopy : forall src, Copy b src w = Returned (Some ErrDestroyed, w)).
  { intros src. unfold Copy, bind, load. now rewrite Hb, Hd. }
  split; [exact HCopy |].
  split. { intros src. unfold Move, bind. now rewrite HCopy. }
  split. { unfold MarkAsReadOnly, bind, load. now rewrite Hb, Hd. }
  split. { unfold MarkAsReadWrite, bind, load. now rewrite Hb, Hd. }
  split. { intros other. unfold EqualTo, bind, load. now rewrite Hb, Hd. }
  split. { intros offset size. unfold Trim, bind, load. now rewrite Hb, Hd. }
  unfold Destroy, bind, load. now rewrite Hb, Hd.
Qed.

Lemma world_guarded_layout :
  guarded_layout 4096 (mkSlice 65536 12288 12288)
                 (mkContainer (mkSlice 73720 8 8) false false).
Proof.
  unfold guarded_layout. cbn [buffer s_len s_ptr].
  change (roundToPageSize 4096 (int_add 8 32)) with 4096.
  unfold int_max. repeat split; lia.
Qed.

(** ** The terminal state *)

(** C1: [Destroy] on a live buffer (in its guarded region, canary copy
    intact, kernel granting the requests) returns and leaves the buffer
    with empty data, [destroyed = true] and [readOnly = false]; from then
    on [Copy], [Move], [MarkAsReadOnly], [MarkAsReadWrite], [EqualTo] and
    [Trim] all answer [ErrDestroyed] without changing the state, and a
    second [Destroy] returns without changing it either. *)
Theorem Destroy_is_terminal (P : Z) (os : kernel) (w : world) (b : LockedBuffer)
    (c : container) (region : slice) :
  0 < P -> cooperative os ->
  containers w !! b = Some c -> destroyed c = false ->
  1 <= s_len (buffer c) -> guarded_layout P region c ->
  range_all (readable w) (canary w) = true ->
  bytes_of w (mkSlice (s_ptr (buffer c) - 32) 32 32) = bytes_of w (canary w) ->
  exists w' c',
    Destroy P os b w = Returned (tt, w') /\
    containers w' !! b = Some c' /\
    buffer c' = nil_slice /\ bytes_of w' (buffer c') = [] /\
    destroyed c' = true /\ readOnly c' = false /\
    (forall src, Copy b src w' = Returned (Some ErrDestroyed, w')) /\
    (forall src, Move b src w' = Returned (Some ErrDestroyed, w')) /\
    MarkAsReadOnly P os b w' = Returned (Some ErrDestroyed, w') /\
    MarkAsReadWrite P os b w' = Returned (Some ErrDestroyed, w') /\
    (forall other, EqualTo b other w' = Returned ((false, Some ErrDestroyed), w')) /\
    (forall offset size, Trim P os b offset size w' = Returned (inr ErrDestroyed, w')) /\
    Destroy P os b w' = Returned (tt, w').
Proof.
  intros HP Hc Hb Hlive Hn Hlay HK Hcanary.
  destruct (Destroy_spec P os w b c region HP Hc Hb Hlive Hn Hlay HK Hcanary)
    as (w' & Hrun & Hcs & _).
  assert (Hb' : containers w' !! b = Some (mkContainer nil_slice false true)).
  { rewrite Hcs. apply list_lookup_insert_eq. eapply lookup_lt_Some. exact Hb. }
  exists w', (mkContainer nil_slice false true).
  split; [exact Hrun |]. split; [exact Hb' |].
  do 4 (split; [reflexivity |]).
  exact (destroyed_refuses P os w' b _ Hb' eq_refl).
Qed.

Lemma Destroy_is_terminal_witness :
  exists w',
    Destroy 4096 os_granting 0%nat world_guarded = Returned (tt, w') /\
    containers w' !! 0%nat = Some (mkContainer nil_slice false true) /\
    Copy 0%nat (mkSlice 400 1 1) w' = Returned (Some ErrDestroyed, w') /\
    Destroy 4096 os_granting 0%nat w' = Returned (tt, w').
Proof.
  destruct (Destroy_is_terminal 4096 os_granting world_guarded 0%nat
              (mkContainer (mkSlice 73720 8 8) false false)
              (mkSlice 65536 12288 12288)
              ltac:(lia) os_granting_cooperative eq_refl eq_refl
              ltac:(cbn; lia) world_guarded_layout eq_refl eq_refl)
    as (w' & c' & Hrun & Hb & Hbuf & _ & Hd & Hro & HCopy & _ & _ & _ & _ & _ & HD2).
  exists w'. split; [exact Hrun |]. split.
  - destruct c' as [bf ro d]. cbn in Hbuf, Hd, Hro. subst. exact Hb.
  - split; [apply HCopy | exact HD2].
Defined.

(** ** From creation to destruction *)

(** The premises of [Destroy_spec] are what [New] establishes: a buffer
    just created can be destroyed, and ends in the terminal state. *)
Lemma New_then_Destroy (P : Z) (os : kernel) (w : world) (n : Z) :
  0 < P -> cooperative os -> 0 < n -> n + 32 + 3 * P <= int_max ->
  range_all (readable w) (canary w) = true -> s_len (canary w) = 32 ->
  (forall base a, sys_mmap os w (2 * P + roundToPageSize P (n + 32)) = Some base ->
                  base <= a < base + (2 * P + roundToPageSize P (n + 32)) ->
                  prot w a = None) ->
  exists b w' w'',
    New P os n w = Returned (inl b, w') /\
    Destroy P os b w' = Returned (tt, w'') /\
    containers w'' !! b = Some (mkContainer nil_slice false true) /\
    (forall src, Copy b src w'' = Returned (Some ErrDestroyed, w'')).
Proof.
  intros HP Hc Hn Hfit HK HK32 Hfresh.
  assert (HR : n + 32 <= roundToPageSize P (n + 32) <= n + 32 + (P - 1)).
  { apply roundToPageSize_bounds; unfold in_int, int_min, int_max in *; lia. }
  destruct (New_spec P os w n HP Hc Hn ltac:(lia) ltac:(lia) HK Hfresh)
    as (base & w' & Hm & Hb0 & Hb1 & Hnew & Hcs & _ & HK' & Hout & _ & Hin & Hslot & _).
  set (R := roundToPageSize P (n + 32)) in *.
  set (c := mkContainer (mkSlice (base + P + (R - n)) n n) false false) in *.
  set (b := length (containers w)) in *.
  assert (Hb : containers w' !! b = Some c).
  { rewrite Hcs. apply list_lookup_middle. reflexivity. }
  assert (Hkeep : forall a, s_ptr (canary w) <= a < s_ptr (canary w) + 32 ->
                            ~ (base <= a < base + (2 * P + R))).
  { intros a Ha Hina. rewrite range_all_spec in HK.
    specialize (HK a ltac:(lia)). unfold readable in HK.
    rewrite (Hfresh base a Hm Hina) in HK. discriminate HK. }
  destruct (Destroy_spec P os w' b c (mkSlice base (2 * P + R) (2 * P + R)))
    as (w'' & Hrun & Hcs'' & _); try assumption; try reflexivity.
  - cbn; lia.
  - unfold guarded_layout. cbn [c buffer s_len s_ptr].
    rewrite (int_add_id n 32) by (unfold in_int, int_min, int_max in *; lia).
    fold R. unfold int_max in *. repeat split; lia.
  - rewrite HK'. apply range_all_spec. intros a Ha.
    rewrite range_all_spec in HK. specialize (HK a Ha).
    unfold readable in *.
    destruct (Hout a (Hkeep a ltac:(lia))) as [-> _]. exact HK.
  - rewrite HK'. apply bytes_of_eq_iff; cbn [c buffer s_ptr s_len]; try lia.
    split; [lia |]. intros i Hi.
    rewrite Hslot by lia.
    destruct (Hout (s_ptr (canary w) + i)
                (Hkeep (s_ptr (canary w) + i) ltac:(lia))) as [_ ->].
    reflexivity.
  - assert (Hb'' : containers w'' !! b = Some (mkContainer nil_slice false true)).
    { rewrite Hcs''. apply list_lookup_insert_eq. eapply lookup_lt_Some. exact Hb. }
    exists b, w', w''. split; [exact Hnew |]. split; [exact Hrun |].
    split; [exact Hb'' |].
    exact (proj1 (destroyed_refuses P os w'' b _ Hb'' eq_refl)).
Qed.

(** ** The scenarios of the test-suite, run on [world_heap]

    Page size 4096, kernel [os_granting]. *)

(** [TestRoundPage]. *)
Example test_RoundPage :
  roundToPageSize 4096 4096 = 4096 /\ roundToPageSize 4096 (4096 + 1) = 2 * 4096.
Proof. split; reflexivity. Qed.

(** [TestNew], [TestDestroyedFlag]: [New(8)] has length and capacity 8;
    after [Destroy], [Copy] answers [ErrDestroyed]. *)
Example test_New_Destroy_Copy :
  value ((let* r := New 4096 os_granting 8 in
          on_buffer r (fun b =>
            let* f := fields_of b in
            Destroy 4096 os_granting b ;;
            let* e := Copy b (mkSlice 100 1 1) in
            let* g := fields_of b in
            ret (Some (length (fst (fst (fst f))), snd (fst (fst f)), e, g))))
           world_heap)
  = Some (Some (8%nat, 8, Some ErrDestroyed, ([], 0, false, true))).
Proof. vm_compute. reflexivity. Qed.

(** [TestNewFromBytes], [TestEqualTo]: the data of [NewFromBytes("test")]
    is "test"; it equals "test" and differs from "toast". *)
Example test_NewFromBytes_EqualTo :
  value ((let* r := NewFromBytes 4096 os_granting (mkSlice 100 4 4) in
          on_buffer r (fun b =>
            let* f := fields_of b in
            let* e1 := EqualTo b (mkSlice 200 4 4) in
            let* e2 := EqualTo b (mkSlice 300 5 5) in
            ret (Some (fst (fst (fst f)), e1, e2))))
           world_heap)
  = Some (Some ([116; 101; 115; 116], (true, None), (false, None))).
Proof. vm_compute. reflexivity. Qed.

(** [TestMove]: after [Move(buf)] the data is "yellow submarine" and [buf]
    is sixteen zero bytes. *)
Example test_Move :
  value ((let* r := New 4096 os_granting 16 in
          on_buffer r (fun b =>
            let* e := Move b (mkSlice 400 16 16) in
            let* f := fields_of b in
            let* buf := read_bytes (mkSlice 400 16 16) in
            ret (Some (e, fst (fst (fst f)), buf))))
           world_heap)
  = Some (Some (None,
                [121; 101; 108; 108; 111; 119; 32; 115;
                 117; 98; 109; 97; 114; 105; 110; 101],
                [0; 0; 0; 0; 0; 0; 0; 0; 0; 0; 0; 0; 0; 0; 0; 0])).
Proof. vm_compute. reflexivity. Qed.

(** [TestReadOnlyFlag]: [Move] on a read-only buffer answers [ErrReadOnly]
    and leaves the source as it was. *)
Example test_ReadOnlyFlag :
  value ((let* r := New 4096 os_granting 8 in
          on_buffer r (fun b =>
            MarkAsReadOnly 4096 os_granting b ;;
            let* e := Move b (mkSlice 100 4 4) in
            let* buf := read_bytes (mkSlice 100 4 4) in
            ret (Some (e, buf))))
           world_heap)
  = Some (Some (Some ErrReadOnly, [116; 101; 115; 116])).
Proof. vm_compute. reflexivity. Qed.

(** [TestTrim]: [Trim(b, 2, 4)] of a read-only "xxxxyyyy" is a read-only
    "xxyy"; on the destroyed source it answers [ErrDestroyed]. *)
Example test_Trim :
  value ((let* r := NewFromBytes 4096 os_granting (mkSlice 500 8 8) in
          on_buffer r (fun b =>
            MarkAsReadOnly 4096 os_granting b ;;
            let* r' := Trim 4096 os_granting b 2 4 in
            on_buffer r' (fun c =>
              let* f := fields_of c in
              Destroy 4096 os_granting c ;;
              Destroy 4096 os_granting b ;;
              let* r'' := Trim 4096 os_granting b 2 4 in
              ret (Some (fst (fst (fst f)), snd (fst f), r'')))))
           world_heap)
  = Some (Some ([120; 120; 121; 121], true, inr ErrDestroyed)).
Proof. vm_compute. reflexivity. Qed.

(** [TestWipeBytes]. *)
Example test_WipeBytes :
  value ((wipeBytes (mkSlice 400 16 16) ;; read_bytes (mkSlice 400 16 16)) world_heap)
  = Some [0; 0; 0; 0; 0; 0; 0; 0; 0; 0; 0; 0; 0; 0; 0; 0].
Proof. vm_compute. reflexivity. Qed.

(** A canary copy overwritten behind the library's back makes [Destroy]
    fatal (property 11 of section 8). *)
Example test_canary_overwritten :
  (let* r := New 4096 os_granting 8 in
   match r with
   | inl b =>
       let* c := load b in
       store_index (mkSlice (s_ptr (buffer c) - 32) 32 32) 0 255 ;;
       Destroy 4096 os_granting b
   | inr _ => ret tt
   end) world_heap
  = Panicked "memguard.Destroy(): buffer underflow detected".
Proof. vm_compute. reflexivity. Qed.

(** * Part III: further properties of the source *)

(** ** [roundToPageSize] *)

(** [^(m - 1)] is [-m]. *)
Lemma lnot_pred_opp m : Z.lnot (m - 1) = - m.
Proof. unfold Z.lnot. lia. Qed.

(** X1: whatever the positive page size, power of two or not, a rounding
    that does not overflow returns a value between [x] and [x + P - 1] in
    which every bit of [P - 1] is clear. *)
Theorem roundToPageSize_any_page_size (P x : Z) :
  0 < P -> in_int (P - 1) -> in_int (x + (P - 1)) ->
  let r := roundToPageSize P x in
  x <= r <= x + (P - 1) /\ Z.land r (P - 1) = 0.
Proof.
  intros HP HP1 Hx r. split.
  - now apply roundToPageSize_bounds.
  - unfold r, roundToPageSize, int_and, int_not, int_add, int_sub.
    rewrite (wrap_int_id _ HP1), (wrap_int_id _ Hx).
    rewrite <- Z.ldiff_land. apply Z.land_ldiff.
Qed.

Lemma roundToPageSize_any_page_size_witness :
  40 <= roundToPageSize 48 40 <= 40 + 47 /\ Z.land (roundToPageSize 48 40) 47 = 0.
Proof.
  apply (roundToPageSize_any_page_size 48 40);
    unfold in_int, int_min, int_max; lia.
Defined.

(** X2: for [P = 2^k], rounding a rounded length changes nothing (and
    cannot overflow), and the lengths that rounding leaves alone are
    exactly the multiples of [P]. *)
Theorem roundToPageSize_idempotent (k x : Z) :
  0 <= k <= 62 -> in_int (x + 2 ^ k - 1) ->
  let P := 2 ^ k in
  roundToPageSize P (roundToPageSize P x) = roundToPageSize P x /\
  (roundToPageSize P x = x <-> (P | x)).
Proof.
  intros Hk Hx P. pose proof (pow2_62_bound k Hk) as HP. fold P in HP, Hx.
  assert (H63 : 2 ^ 63 = 2 ^ (63 - k) * P).
  { unfold P. rewrite <- Z.pow_add_r by lia. f_equal. lia. }
  assert (Hq : 0 < 2 ^ (63 - k)) by (apply Z.pow_pos_nonneg; lia).
  pose proof (roundToPageSize_exact k x Hk Hx) as Hr. fold P in Hr.
  set (q := (x + P - 1) / P) in *.
  pose proof (Z.div_mod (x + P - 1) P ltac:(lia)) as Hdm. fold q in Hdm.
  pose proof (Z.mod_pos_bound (x + P - 1) P ltac:(lia)) as Hmod.
  unfold in_int, int_min, int_max in Hx.
  assert (Hqb : - 2 ^ (63 - k) <= q < 2 ^ (63 - k)) by nia.
  split.
  - rewrite Hr at 1. unfold P at 1 2.
    rewrite roundToPageSize_exact; fold P.
    + rewrite Hr. f_equal.
      replace (P * q + P - 1) with ((P - 1) + q * P) by lia.
      rewrite Z.div_add by lia. rewrite Z.div_small by lia. lia.
    + lia.
    + unfold in_int, int_min, int_max. nia.
  - rewrite Hr. split.
    + intros Heq. exists q. lia.
    + intros [j Hj]. subst x.
      assert (q = j); [| nia].
      unfold q. replace (j * P + P - 1) with ((P - 1) + j * P) by lia.
      rewrite Z.div_add by lia. rewrite Z.div_small by lia. lia.
Qed.

Lemma roundToPageSize_idempotent_witness :
  roundToPageSize 4096 (roundToPageSize 4096 5000) = roundToPageSize 4096 5000.
Proof.
  apply (roundToPageSize_idempotent 12 5000); unfold in_int, int_min, int_max; lia.
Defined.

(** X3: for [P = 2^k] and without overflow, rounding is monotone, and
    adding [j] whole pages to the length adds [j] whole pages to the
    result. *)
Theorem roundToPageSize_monotone_shift (k x y j : Z) :
  0 <= k <= 62 ->
  let P := 2 ^ k in
  in_int (x + P - 1) -> in_int (y + P - 1) ->
  (x <= y -> roundToPageSize P x <= roundToPageSize P y) /\
  (y = x + j * P -> roundToPageSize P y = roundToPageSize P x + j * P).
Proof.
  intros Hk P Hx Hy. pose proof (pow2_62_bound k Hk) as HP. fold P in HP.
  unfold P. rewrite !roundToPageSize_exact by assumption. fold P. split.
  - intros Hxy.
    assert ((x + P - 1) / P <= (y + P - 1) / P) by (apply Z.div_le_mono; lia).
    nia.
  - intros ->.
    replace (x + j * P + P - 1) with ((x + P - 1) + j * P) by lia.
    rewrite Z.div_add by lia. lia.
Qed.

Lemma roundToPageSize_monotone_shift_witness :
  roundToPageSize 4096 5000 <= roundToPageSize 4096 9000 /\
  roundToPageSize 4096 (5000 + 3 * 4096) = roundToPageSize 4096 5000 + 3 * 4096.
Proof.
  split.
  - apply (roundToPageSize_monotone_shift 12 5000 9000 0);
      unfold in_int, int_min, int_max; lia.
  - apply (roundToPageSize_monotone_shift 12 5000 (5000 + 3 * 4096) 3);
      unfold in_int, int_min, int_max; lia.
Defined.

(** The lowest set bit of an odd number is bit 0. *)
Lemma land_odd_opp a : Z.land (2 * a + 1) (- (2 * a + 1)) = 1.
Proof.
  replace (- (2 * a + 1)) with (2 * Z.lnot a + 1) by (unfold Z.lnot; lia).
  apply Z.bits_inj'. intros n Hn.
  rewrite Z.land_spec.
  destruct (Z.eq_dec n 0) as [-> | Hn0].
  - rewrite !Z.testbit_odd_0. reflexivity.
  - replace n with (Z.succ (n - 1)) by lia.
    rewrite !Z.testbit_odd_succ by lia.
    rewrite Z.lnot_spec by lia.
    change 1 with (2 * 0 + 1). rewrite Z.testbit_odd_succ by lia.
    rewrite Z.testbit_0_l. apply andb_negb_r.
Qed.

(** X4: the mask only works for powers of two.  For a page size
    [P = 2^j * q] with [q] odd and at least 3, [roundToPageSize 1] is
    [2^j]: positive, smaller than [P] and not a multiple of [P]. *)
Theorem roundToPageSize_odd_factor (j a : Z) :
  0 <= j -> 1 <= a -> 2 ^ j * (2 * a + 1) <= 2 ^ 62 ->
  let P := 2 ^ j * (2 * a + 1) in
  roundToPageSize P 1 = 2 ^ j /\
  0 < roundToPageSize P 1 < P /\
  ~ (P | roundToPageSize P 1).
Proof.
  intros Hj Ha Hb P.
  assert (H2j : 0 < 2 ^ j) by (apply Z.pow_pos_nonneg; lia).
  assert (HP : 2 ^ j < P) by (unfold P; nia).
  assert (Hr : roundToPageSize P 1 = 2 ^ j).
  { unfold roundToPageSize, int_and, int_not, int_add, int_sub.
    rewrite (wrap_int_id (P - 1)) by (unfold in_int, int_min, int_max; lia).
    rewrite (wrap_int_id (1 + (P - 1))) by (unfold in_int, int_min, int_max; lia).
    replace (1 + (P - 1)) with P by lia. rewrite lnot_pred_opp.
    unfold P.
    replace (2 ^ j * (2 * a + 1)) with (Z.shiftl (2 * a + 1) j)
      by (rewrite Z.shiftl_mul_pow2 by lia; lia).
    replace (- Z.shiftl (2 * a + 1) j) with (Z.shiftl (- (2 * a + 1)) j)
      by (rewrite !Z.shiftl_mul_pow2 by lia; lia).
    rewrite <- Z.shiftl_land, land_odd_opp, Z.shiftl_mul_pow2 by lia. lia. }
  rewrite Hr. split; [reflexivity |]. split; [lia |].
  intros [q Hq].
  assert (0 < q) by nia. nia.
Qed.

Lemma roundToPageSize_odd_factor_witness :
  roundToPageSize 12 1 = 4 /\ ~ (12 | roundToPageSize 12 1).
Proof.
  destruct (roundToPageSize_odd_factor 2 1 ltac:(lia) ltac:(lia) ltac:(lia))
    as (H1 & _ & H3).
  split; [exact H1 | exact H3].
Defined.

(** ** [memcall] *)





(** X9: [Alloc n] returns a slice of length and capacity [n] whose bytes
    are zero, readable and writable; [Free] of that slice, on a region
    that was unmapped and unlocked before, puts the protection and the
    lock of every address back to what it was and leaves the bytes
    outside the region alone. *)
Theorem Alloc_Free_round_trip (os : kernel) (n base : Z) (w : world) :
  sys_mmap os w n = Some base ->
  (forall w1 s, sys_munmap os w1 s = true) ->
  (forall a, base <= a < base + n -> prot w a = None /\ locked w a = false) ->
  exists w1 w2,
    Alloc os n w = Returned (mkSlice base n n, w1) /\
    (forall a, base <= a < base + n ->
               mem w1 a = 0 /\ readable w1 a = true /\ writable w1 a = true) /\
    Free os (mkSlice base n n) w1 = Returned (tt, w2) /\
    (forall a, prot w2 a = prot w a /\ locked w2 a = locked w a) /\
    (forall a, ~ (base <= a < base + n) -> mem w2 a = mem w a) /\
    same_globals w w2.
Proof.
  intros Hm Hunmap Hfresh.
  destruct (Alloc_spec os n base w Hm) as (w1 & Hrun & Hmem1 & Hprot1 & Hlock1 & _ & Hg1).
  exists w1. unfold Free. rewrite Hunmap. eexists.
  split; [exact Hrun |].
  split.
  { intros a Ha. unfold readable, writable. rewrite Hmem1, Hprot1.
    unfold set_range. range_lia. repeat split. }
  split; [reflexivity |].
  cbn [prot locked mem]. rewrite Hprot1, Hlock1. unfold set_range.
  split; [| split].
  - intros a. destruct (in_range (mkSlice base n n) a) eqn:Ein.
    + apply in_range_true in Ein. cbn [s_ptr s_len] in Ein.
      destruct (Hfresh a Ein) as [Hp Hl]. now rewrite Hp, Hl.
    + split; reflexivity.
  - intros a Ha. rewrite Hmem1. unfold set_range. range_lia.
  - exact Hg1.
Qed.

Lemma Alloc_Free_round_trip_witness :
  exists w1 w2,
    Alloc os_granting 8192 world_canary = Returned (mkSlice 65536 8192 8192, w1) /\
    Free os_granting (mkSlice 65536 8192 8192) w1 = Returned (tt, w2) /\
    prot w2 70000 = prot world_canary 70000.
Proof.
  destruct (Alloc_Free_round_trip os_granting 8192 65536 world_canary
              eq_refl (fun _ _ => eq_refl))
    as (w1 & w2 & Ha & _ & Hf & Hrestore & _).
  - intros a Ha. split; [| reflexivity]. cbn.
    destruct (Z.leb_spec 4096 a); destruct (Z.ltb_spec a 4128); cbn;
      try reflexivity; lia.
  - exists w1, w2. split; [exact Ha |]. split; [exact Hf |].
    apply (Hrestore 70000).
Defined.



(** ** [wipeBytes] and [getBytes] *)

(** A failed [forallb] has a culprit. *)
Lemma forallb_false_witness {A : Type} (p : A -> bool) (l : list A) :
  forallb p l = false -> exists x, In x l /\ p x = false.
Proof.
  induction l as [| x l IH]; cbn; [discriminate |].
  destruct (p x) eqn:Hx; cbn.
  - intros H. destruct (IH H) as (y & Hy & Hpy). exists y. auto.
  - intros _. exists x. auto.
Qed.

(** The loop of [wipeBytes] faults as soon as one of its bytes cannot
    be written. *)
Lemma for_each_wipe_fault (buf : slice) :
  forall (l : list Z) (w : world),
    (forall i, In i l -> 0 <= i < s_len buf) ->
    (exists i, In i l /\ writable w (s_ptr buf + i) = false) ->
    for_each l (fun i => store_index buf i 0) w = Faulted.
Proof.
  induction l as [| i l IH]; intros w Hl (j & Hj & Hbad); [destruct Hj |].
  cbn [for_each]. unfold bind at 1. unfold store_index at 1. unfold bind at 1.
  rewrite addr_of_index_ok by (apply Hl; now left).
  destruct (writable w (s_ptr buf + i)) eqn:Hw; [| reflexivity].
  apply IH.
  - intros i' Hi'. apply Hl. now right.
  - destruct Hj as [-> | Hj]; [congruence |].
    exists j. split; [exact Hj |]. exact Hbad.
Qed.

(** [wipeBytes] does not return when some byte cannot be written. *)
Lemma wipeBytes_faults (buf : slice) (w : world) :
  range_all (writable w) buf = false -> wipeBytes buf w = Faulted.
Proof.
  intros Hw. unfold range_all in Hw.
  apply forallb_false_witness in Hw. destruct Hw as (a & Ha & Hbad).
  apply list_elem_of_In, elem_of_seqZ in Ha.
  unfold wipeBytes. apply for_each_wipe_fault.
  - intros i Hi. apply list_elem_of_In, elem_of_seqZ in Hi. lia.
  - exists (a - s_ptr buf). split.
    + apply list_elem_of_In, elem_of_seqZ. lia.
    + replace (s_ptr buf + (a - s_ptr buf)) with a by lia. exact Hbad.
Qed.

(** X10: when every byte of [buf] is writable, [wipeBytes buf] returns
    with exactly the bytes of [buf] set to zero (no other byte, no
    protection and no lock changes); when some byte of [buf] is not
    writable it faults instead of returning. *)
Theorem wipeBytes_zeroes_or_faults (buf : slice) (w : world) :
  (range_all (writable w) buf = true ->
   exists w',
     wipeBytes buf w = Returned (tt, w') /\
     (forall a, s_ptr buf <= a < s_ptr buf + s_len buf -> mem w' a = 0) /\
     (forall a, ~ (s_ptr buf <= a < s_ptr buf + s_len buf) -> mem w' a = mem w a) /\
     prot w' = prot w /\ locked w' = locked w /\ same_globals w w') /\
  (range_all (writable w) buf = false -> wipeBytes buf w = Faulted).
Proof.
  split.
  - intros Hw. destruct (wipeBytes_spec buf w Hw) as (w' & Hrun & Hmem & Hrest).
    exists w'. split; [exact Hrun |].
    split; [| split; [| exact Hrest]]; intros a Ha; rewrite Hmem;
      unfold set_range; range_lia.
  - apply wipeBytes_faults.
Qed.

Lemma wipeBytes_zeroes_or_faults_witness :
  (exists w', wipeBytes (mkSlice 400 16 16) world_heap = Returned (tt, w') /\
              mem w' 415 = 0 /\ mem w' 500 = 120) /\
  wipeBytes (mkSlice 4096 32 32) world_heap = Faulted.
Proof.
  destruct (wipeBytes_zeroes_or_faults (mkSlice 400 16 16) world_heap) as [Hok _].
  destruct (wipeBytes_zeroes_or_faults (mkSlice 4096 32 32) world_heap) as [_ Hbad].
  split.
  - destruct (Hok eq_refl) as (w' & Hrun & Hin & Hout & _).
    exists w'. split; [exact Hrun |]. split.
    + apply Hin. cbn. lia.
    + rewrite Hout by (cbn; lia). reflexivity.
  - apply Hbad. reflexivity.
Defined.

(** Two slices of the same length hold the same bytes when they agree
    position by position, possibly in different states. *)
Lemma bytes_of_pointwise (w w' : world) (s t : slice) :
  s_len s = s_len t ->
  (forall i, 0 <= i < s_len s -> mem w (s_ptr s + i) = mem w' (s_ptr t + i)) ->
  bytes_of w s = bytes_of w' t.
Proof.
  intros Hlen Hpt. unfold bytes_of. apply list_eq. intros i.
  rewrite !list_lookup_fmap.
  destruct (decide (Z.of_nat i < s_len s)) as [Hi | Hi].
  - rewrite (lookup_seqZ_lt (s_ptr s) (s_len s) i) by lia.
    rewrite (lookup_seqZ_lt (s_ptr t) (s_len t) i) by lia.
    cbn. f_equal. apply Hpt. lia.
  - rewrite (lookup_seqZ_ge (s_ptr s) (s_len s) i) by lia.
    rewrite (lookup_seqZ_ge (s_ptr t) (s_len t) i) by lia.
    reflexivity.
Qed.

(** X11: the slice that [getBytes] builds from the address of [b[0]] and
    [len(b)] is the memory of [b] itself ([TestGetBytes]): after copying
    [src] into it, [b] holds the bytes [src] held, and both slices read
    the same. *)
Theorem getBytes_aliases (b src : slice) (w : world) :
  1 <= s_len b -> s_len src = s_len b ->
  range_all (writable w) b = true -> range_all (readable w) src = true ->
  exists p w',
    addr_of_index b 0 w = Returned (p, w) /\
    copy (getBytes p (s_len b)) src w = Returned (s_len b, w') /\
    bytes_of w' b = bytes_of w src /\
    bytes_of w' (getBytes p (s_len b)) = bytes_of w' b.
Proof.
  intros Hn Hlen Hw Hr.
  exists (s_ptr b + 0). 
  destruct (copy_spec (getBytes (s_ptr b + 0) (s_len b)) src w)
    as (w' & Hrun & Hmem & _).
  { eapply range_all_sub; [| | exact Hr]; cbn [s_ptr s_len getBytes]; lia. }
  { eapply range_all_sub; [| | exact Hw]; cbn [s_ptr s_len getBytes]; lia. }
  cbn [getBytes s_ptr s_len] in Hrun, Hmem.
  rewrite Hlen, Z.min_id in Hrun, Hmem.
  exists w'. split; [apply addr_of_index_ok; lia |].
  split; [exact Hrun |]. split.
  - apply bytes_of_pointwise; [congruence |].
    intros i Hi. rewrite Hmem. range_lia.
  - apply bytes_of_pointwise; [reflexivity |].
    intros i Hi. cbn [getBytes s_ptr]. f_equal. lia.
Qed.

Lemma getBytes_aliases_witness :
  exists p w',
    copy (getBytes p 4) (mkSlice 300 4 4) world_heap = Returned (4, w') /\
    bytes_of w' (mkSlice 100 4 4) = [116; 111; 97; 115].
Proof.
  destruct (getBytes_aliases (mkSlice 100 4 4) (mkSlice 300 4 4) world_heap)
    as (p & w' & _ & Hrun & Hb & _); try reflexivity; [cbn; lia |].
  exists p, w'. split; [exact Hrun |]. rewrite Hb. reflexivity.
Defined.

(** ** [getAllMemory] *)

(** X12: [getAllMemory] takes the address of [b.buffer[0]], so on a
    container whose buffer has length 0 (the [nil] buffer of a destroyed
    one, for instance) it panics with an index error, whatever the page
    size. *)
Theorem getAllMemory_empty_buffer_panics (P : Z) (b : container) (w : world) :
  s_len (buffer b) = 0 ->
  getAllMemory P b w = Panicked "runtime error: index out of range".
Proof.
  intros Hn. unfold getAllMemory, bind.
  rewrite addr_of_index_empty by exact Hn. reflexivity.
Qed.

Lemma getAllMemory_empty_buffer_panics_witness :
  getAllMemory 4096 (mkContainer nil_slice false true) world_empty
  = Panicked "runtime error: index out of range".
Proof.
  apply (getAllMemory_empty_buffer_panics 4096 (mkContainer nil_slice false true)).
  reflexivity.
Defined.

(** X13: for [P = 2^k] and a buffer of [n >= 1] bytes (sizes within
    [int]), the slice [getAllMemory] returns has its capacity equal to its
    length, a length that is a whole number of pages, at least three and
    less than [n + 32 + 3P]; it starts [len - P - n] bytes before the
    buffer, modulo [2^64]. *)
Theorem getAllMemory_whole_pages (k : Z) (b : container) (w : world) :
  0 <= k <= 60 ->
  let P := 2 ^ k in
  let n := s_len (buffer b) in
  1 <= n -> n + 32 + 3 * P <= int_max -> 0 <= s_ptr (buffer b) < 2 ^ 64 ->
  exists m,
    getAllMemory P b w = Returned (m, w) /\
    s_cap m = s_len m /\
    (P | s_len m) /\
    3 * P <= s_len m < n + 32 + 3 * P /\
    s_ptr m = (s_ptr (buffer b) - (s_len m - P - n)) mod 2 ^ 64.
Proof.
  intros Hk P n Hn Hfit Hptr.
  assert (HP : 0 < P <= 2 ^ 60).
  { unfold P. split; [apply Z.pow_pos_nonneg; lia | apply Z.pow_le_mono_r; lia]. }
  unfold int_max in Hfit.
  pose proof (roundToPageSize_exact k (n + 32) ltac:(lia)
                ltac:(fold P; unfold in_int, int_min, int_max; lia)) as HR.
  fold P in HR. set (R := roundToPageSize P (n + 32)) in *.
  pose proof (Z.div_mod (n + 32 + P - 1) P ltac:(lia)) as Hdm.
  pose proof (Z.mod_pos_bound (n + 32 + P - 1) P ltac:(lia)) as Hmod.
  set (q := (n + 32 + P - 1) / P) in *.
  assert (Hq : 1 <= q) by nia.
  assert (HRb : n + 32 <= R <= n + 32 + (P - 1)) by lia.
  unfold getAllMemory. fold n.
  rewrite (int_add_id n 32) by (unfold in_int, int_min, int_max; lia). fold R.
  rewrite (int_sub_id R n), (int_add_id (R - n) P), (int_mul_id P 2),
    (int_add_id (P * 2) R) by (unfold in_int, int_min, int_max; lia).
  unfold bind. rewrite addr_of_index_ok by (fold n; lia).
  unfold uintptr_sub, uintptr_of_int.
  rewrite (wrap_uintptr_id (R - n + P)) by lia.
  eexists. split; [reflexivity |]. cbn [getBytes s_len s_cap s_ptr].
  split; [reflexivity |]. split; [exists (2 + q); lia |]. split; [nia |].
  unfold wrap_uintptr. f_equal. lia.
Qed.

Lemma getAllMemory_whole_pages_witness :
  exists m,
    getAllMemory 4096 (mkContainer (mkSlice 73720 8 8) false false) world_empty
    = Returned (m, world_empty) /\ (4096 | s_len m) /\ 3 * 4096 <= s_len m.
Proof.
  destruct (getAllMemory_whole_pages 12 (mkContainer (mkSlice 73720 8 8) false false)
              world_empty ltac:(lia) ltac:(cbn; lia)
              ltac:(cbn; unfold int_max; lia) ltac:(cbn; lia))
    as (m & Hrun & _ & Hdiv & Hlen & _).
  exists m. split; [exact Hrun |]. split; [exact Hdiv | lia].
Defined.

(** ** [createCanary] on any kernel *)

(** [Lock] either panics because [mlock] was refused, or returns. *)
Lemma Lock_cases (os : kernel) (b : slice) (w : world) :
  (Lock os b w = Panicked "memguard.memcall.Lock(): could not aquire lock" /\
   exists w1, sys_mlock os w1 b = false) \/
  (exists w', Lock os b w = Returned (tt, w') /\
     mem w' = mem w /\ prot w' = prot w /\
     locked w' = set_range (locked w) b true /\ same_globals w w').
Proof.
  unfold Lock.
  match goal with |- context [sys_mlock os ?w1 b] => destruct (sys_mlock os w1 b) eqn:Hl end.
  - right. eexists. split; [reflexivity |].
    destruct (sys_madvise os w b MADV_DONTDUMP); cbn; repeat split.
  - left. split; [reflexivity | eauto].
Qed.

(** [Protect] either panics because [mprotect] was refused, or returns. *)
Lemma Protect_cases (os : kernel) (b : slice) (rd wr : bool) (w : world) :
  (Protect os b rd wr w = Panicked "memguard.memcall.Protect(): could not set protection" /\
   exists p, sys_mprotect os w b p = false) \/
  (exists w', Protect os b rd wr w = Returned (tt, w') /\
     mem w' = mem w /\
     prot w' = set_range (prot w) b
                 (Some (if rd then (if wr then Z.lor PROT_READ PROT_WRITE else PROT_READ)
                        else (if wr then PROT_WRITE else PROT_NONE))) /\
     locked w' = locked w /\ same_globals w w').
Proof.
  unfold Protect.
  match goal with |- context [sys_mprotect os w b ?p] =>
    destruct (sys_mprotect os w b p) eqn:Hp end.
  - right. eexists. split; [reflexivity |]. destruct rd, wr; cbn; repeat split.
  - left. split; [reflexivity | eauto].
Qed.

(** Consume a [Lock], leaving the refused case as a goal of its own. *)
Ltac run_Lock_cases E :=
  unfold bind at 1 in E;
  match type of E with
  | context [Lock ?os ?b ?w0] =>
      let w1 := fresh "w" in
      let Hrun := fresh "Hrun" in
      destruct (Lock_cases os b w0)
        as [[Hrun ?Hrefused] | (w1 & Hrun & ?Hmem & ?Hprot & ?Hlocked & ?Hglob)];
      rewrite Hrun in E; clear Hrun
  end.

(** Consume a [Protect], leaving the refused case as a goal of its own. *)
Ltac run_Protect_cases E :=
  unfold bind at 1 in E;
  match type of E with
  | context [Protect ?os ?b ?rd ?wr ?w0] =>
      let w1 := fresh "w" in
      let Hrun := fresh "Hrun" in
      destruct (Protect_cases os b rd wr w0)
        as [[Hrun ?Hrefused] | (w1 & Hrun & ?Hmem & ?Hprot & ?Hlocked & ?Hglob)];
      rewrite Hrun in E; clear Hrun
  end.

(** Every way a run of [createCanary] can end. *)
Lemma createCanary_cases (P : Z) (os : kernel) (w : world) :
  0 < P <= 2 ^ 60 ->
  let R := roundToPageSize P 32 in
  (createCanary P os w = Panicked "memguard.memcall.Alloc(): could not allocate" /\
   sys_mmap os w (2 * P + R) = None) \/
  (createCanary P os w = Panicked "memguard.memcall.Lock(): could not aquire lock" /\
   exists w1 s, sys_mlock os w1 s = false) \/
  (createCanary P os w
   = Panicked "memguard.memcall.Protect(): could not set protection" /\
   exists w1 s p, sys_mprotect os w1 s p = false) \/
  (createCanary P os w = Panicked "memguard.csprng(): could not get random bytes" /\
   exists w1, sys_getrandom os w1 32 = None) \/
  (exists base r w1 w',
     sys_mmap os w (2 * P + R) = Some base /\
     sys_getrandom os w1 32 = Some r /\
     createCanary P os w = Returned (getBytes (base + P + R - 32) 32, w') /\
     canary_region P w w' base r).
Proof.
  intros HP R.
  assert (HR : 32 <= R <= 32 + (P - 1)).
  { apply roundToPageSize_bounds; unfold in_int, int_min, int_max; lia. }
  remember (createCanary P os w) as out eqn:E.
  unfold createCanary in E; fold R in E.
  rewrite (int_mul_id 2 P), (int_add_id (2 * P) R), (int_add_id P R),
    (int_sub_id (P + R) 32) in E by (unfold in_int, int_min, int_max; lia).
  unfold bind at 1 in E.
  destruct (sys_mmap os w (2 * P + R)) as [base |] eqn:Hm.
  2:{ unfold Alloc in E. rewrite Hm in E. left. split; [exact E | reflexivity]. }
  destruct (Alloc_spec os _ _ _ Hm) as (w1 & Hrun & Hmem1 & Hprot1 & Hlock1 & _ & Hg1).
  rewrite Hrun in E; clear Hrun.
  run_pure E slice_lo_hi_ok.
  run_Lock_cases E.
  { right; left. split; [exact E |]. destruct Hrefused as [w1' Hr']. eauto. }
  unfold slice_hi in E. run_pure E slice_lo_hi_ok.
  run_Protect_cases E.
  { right; right; left. split; [exact E |]. destruct Hrefused as [p Hr']. eauto. }
  unfold slice_lo in E. run_pure E slice_lo_hi_ok.
  run_Protect_cases E.
  { right; right; left. split; [exact E |]. destruct Hrefused as [p Hr']. eauto. }
  run_pure E addr_of_index_ok.
  unfold bind at 1 in E. unfold fillRandBytes at 1 in E.
  cbn [getBytes s_len] in E.
  match type of E with
  | context [sys_getrandom os ?w0 32] =>
      destruct (sys_getrandom os w0 32) as [r |] eqn:Hr
  end.
  2:{ right; right; right; left. split; [exact E | eauto]. }
  match type of E with
  | context [range_all ?p ?b] =>
      assert (Hwr : range_all p b = true)
  end.
  { apply range_all_spec. cbn [s_ptr s_len getBytes]. intros a Ha.
    unfold writable. unfold_fields. unfold set_range. range_lia. }
  rewrite Hwr in E.
  run_pure E slice_lo_hi_ok.
  run_Protect_cases E.
  { right; right; left. split; [exact E |]. destruct Hrefused as [p Hr']. eauto. }
  unfold ret in E.
  replace (base + (P + R - 32)) with (base + P + R - 32) in * by lia.
  right; right; right; right.
  exists base, r. eexists. eexists.
  split; [reflexivity |]. split; [exact Hr |]. split; [exact E |].
  unfold canary_region. fold R.
  cbn [mem prot locked with_mem].
  assert (Hg : same_globals w w4).
  { eapply same_globals_trans; [| exact Hglob2].
    eapply same_globals_trans; [| repeat split].
    eauto 10 using same_globals_trans. }
  cbn [mem prot locked with_mem] in *.
  unfold readable, writable. unfold_fields.
  unfold set_range, getBytes.
  repeat split; intros; range_lia; apply Hg.
Qed.

(** X14: on any kernel, [createCanary] ends in one of five ways: a panic
    of [Alloc] ([mmap] refused), of [Lock] ([mlock] refused), of [Protect]
    ([mprotect] refused) or of [fillRandBytes] (no random bytes), or a
    return with the whole region in place.  It never faults, and never
    returns a canary whose region is not guarded, locked and read-only. *)
Theorem createCanary_returns_or_reports (P : Z) (os : kernel) (w : world) :
  0 < P <= 2 ^ 60 ->
  let R := roundToPageSize P 32 in
  (createCanary P os w = Panicked "memguard.memcall.Alloc(): could not allocate" /\
   sys_mmap os w (2 * P + R) = None) \/
  (createCanary P os w = Panicked "memguard.memcall.Lock(): could not aquire lock" /\
   exists w1 s, sys_mlock os w1 s = false) \/
  (createCanary P os w
   = Panicked "memguard.memcall.Protect(): could not set protection" /\
   exists w1 s p, sys_mprotect os w1 s p = false) \/
  (createCanary P os w = Panicked "memguard.csprng(): could not get random bytes" /\
   exists w1, sys_getrandom os w1 32 = None) \/
  (exists base r w1 w',
     sys_mmap os w (2 * P + R) = Some base /\
     sys_getrandom os w1 32 = Some r /\
     createCanary P os w = Returned (getBytes (base + P + R - 32) 32, w') /\
     canary_region P w w' base r).
Proof. exact (createCanary_cases P os w). Qed.

Lemma createCanary_returns_or_reports_witness :
  createCanary 4096 os_refusing_locks world_empty
  = Panicked "memguard.memcall.Lock(): could not aquire lock".
Proof.
  destruct (createCanary_returns_or_reports 4096 os_refusing_locks world_empty
              ltac:(lia))
    as [[H _] | [[H _] | [[H _] | [[H _] | (base & r & w1 & w' & _ & _ & H & _)]]]].
  - vm_compute in H. discriminate H.
  - exact H.
  - vm_compute in H. discriminate H.
  - vm_compute in H. discriminate H.
  - vm_compute in H. discriminate H.
Defined.

(** The inner pages of the canary: one page, or 32 bytes on a page size
    below 32. *)
Lemma roundToPageSize_32 (k : Z) :
  0 <= k <= 60 -> roundToPageSize (2 ^ k) 32 = Z.max (2 ^ k) 32.
Proof.
  intros Hk.
  destruct (Z_lt_le_dec k 5) as [Hsmall | Hbig].
  - assert (Hc : k = 0 \/ k = 1 \/ k = 2 \/ k = 3 \/ k = 4) by lia.
    destruct Hc as [-> | [-> | [-> | [-> | ->]]]]; reflexivity.
  - assert (HP : 32 <= 2 ^ k <= 2 ^ 60).
    { split; [change 32 with (2 ^ 5) | ]; apply Z.pow_le_mono_r; lia. }
    rewrite roundToPageSize_exact by (unfold in_int, int_min, int_max; lia).
    replace (32 + 2 ^ k - 1) with (31 + 1 * 2 ^ k) by lia.
    rewrite Z.div_add by lia. rewrite Z.div_small by lia. lia.
Qed.

(** X15: for [P = 2^k] on a granting kernel, [createCanary] maps
    [2P + max(P, 32)] bytes and returns the 32 bytes that end where the
    rear guard begins; from [P = 32] on the region is exactly three pages
    and the canary is the last 32 bytes of the middle one.  The containers
    and the package variables are not touched. *)
Theorem createCanary_region_size (k : Z) (os : kernel) (w : world) :
  0 <= k <= 60 -> cooperative os ->
  let P := 2 ^ k in
  exists base w',
    sys_mmap os w (2 * P + Z.max P 32) = Some base /\
    createCanary P os w = Returned (getBytes (base + P + Z.max P 32 - 32) 32, w') /\
    (5 <= k -> sys_mmap os w (3 * P) = Some base /\
               createCanary P os w = Returned (getBytes (base + 2 * P - 32) 32, w')) /\
    same_globals w w'.
Proof.
  intros Hk Hc P.
  assert (HP : 0 < P <= 2 ^ 60).
  { unfold P. split; [apply Z.pow_pos_nonneg; lia | apply Z.pow_le_mono_r; lia]. }
  pose proof (roundToPageSize_32 k Hk) as HR. fold P in HR.
  destruct (createCanary_cases P os w HP)
    as [[_ H] | [[_ H] | [[_ H] | [[_ H] | (base & r & w1 & w' & Hm & _ & Hrun & Hreg)]]]].
  - exfalso. cbv zeta in H.
    destruct (coop_mmap os Hc w (2 * P + roundToPageSize P 32)) as (b & Hb & _).
    + rewrite HR. unfold int_max. lia.
    + congruence.
  - exfalso. destruct H as (w1 & s & H). rewrite (coop_mlock os Hc) in H. discriminate.
  - exfalso. destruct H as (w1 & s & p & H).
    rewrite (coop_mprotect os Hc) in H. discriminate.
  - exfalso. destruct H as (w1 & H).
    destruct (coop_getrandom os Hc w1 32) as [r Hr]. congruence.
  - cbv zeta in Hm, Hrun. rewrite HR in Hm, Hrun.
    exists base, w'. split; [exact Hm |]. split; [exact Hrun |]. split.
    + intros Hbig.
      assert (Hmax : Z.max P 32 = P).
      { apply Z.max_l. unfold P. change 32 with (2 ^ 5).
        apply Z.pow_le_mono_r; lia. }
      rewrite Hmax in Hm, Hrun.
      replace (3 * P) with (2 * P + P) by lia.
      replace (base + 2 * P - 32) with (base + P + P - 32) by lia. auto.
    + apply Hreg.
Qed.

Lemma createCanary_region_size_witness :
  exists w',
    createCanary 4096 os_granting world_empty
    = Returned (mkSlice (65536 + 2 * 4096 - 32) 32 32, w').
Proof.
  destruct (createCanary_region_size 12 os_granting world_empty ltac:(lia)
              os_granting_cooperative)
    as (base & w' & _ & _ & Hbig & _).
  destruct (Hbig ltac:(lia)) as [Hm Hrun].
  vm_compute in Hm. injection Hm as <-.
  exists w'. exact Hrun.
Defined.

Lemma createCanary_part000_layout_witness :
  exists c w', Part000.createCanary 4096 os_granting world_empty = Returned (c, w') /\
               c = mkSlice (65536 + 4096 + 4096 - 32) 32 32.
Proof.
  destruct (createCanary_part000_layout 4096 os_granting world_empty
              ltac:(lia) os_granting_cooperative)
    as (base & r & w1 & w' & Hm & _ & Hrun & _).
  exists (getBytes (base + 4096 + roundToPageSize 4096 32 - 32) 32), w'.
  split; [exact Hrun |].
  vm_compute in Hm. injection Hm as <-. reflexivity.
Defined.

(** X16: the slice [createCanary] returns on a granting kernel has length
    and capacity 32, can be read, and cannot be written: [wipeBytes] on it
    faults. *)
Theorem createCanary_canary_is_read_only (P : Z) (os : kernel) (w : world) :
  0 < P <= 2 ^ 60 -> cooperative os ->
  exists c w',
    createCanary P os w = Returned (c, w') /\
    s_len c = 32 /\ s_cap c = 32 /\
    range_all (readable w') c = true /\
    wipeBytes c w' = Faulted.
Proof.
  intros HP Hc.
  assert (HR : 32 <= roundToPageSize P 32 <= 32 + (P - 1)).
  { apply roundToPageSize_bounds; unfold in_int, int_min, int_max; lia. }
  destruct (createCanary_cases P os w HP)
    as [[_ H] | [[_ H] | [[_ H] | [[_ H] | (base & r & w1 & w' & Hm & _ & Hrun & Hreg)]]]].
  - exfalso. cbv zeta in H.
    destruct (coop_mmap os Hc w (2 * P + roundToPageSize P 32)) as (b & Hb & _).
    + unfold int_max. lia.
    + congruence.
  - exfalso. destruct H as (w1 & s & H). rewrite (coop_mlock os Hc) in H. discriminate.
  - exfalso. destruct H as (w1 & s & p & H).
    rewrite (coop_mprotect os Hc) in H. discriminate.
  - exfalso. destruct H as (w1 & H).
    destruct (coop_getrandom os Hc w1 32) as [r Hr]. congruence.
  - cbv zeta in Hrun. destruct Hreg as (_ & _ & Hmid & _).
    do 2 eexists. split; [exact Hrun |].
    split; [reflexivity |]. split; [reflexivity |]. split.
    + apply range_all_spec. cbn [getBytes s_ptr s_len]. intros a Ha.
      apply (Hmid a). lia.
    + apply wipeBytes_faults. apply not_true_is_false. intros Hall.
      rewrite range_all_spec in Hall. cbn [getBytes s_ptr s_len] in Hall.
      specialize (Hall (base + P + roundToPageSize P 32 - 32) ltac:(lia)).
      destruct (Hmid (base + P + roundToPageSize P 32 - 32) ltac:(lia))
        as (_ & _ & Hnw).
      congruence.
Qed.

Lemma createCanary_canary_is_read_only_witness :
  exists c w',
    createCanary 4096 os_granting world_empty = Returned (c, w') /\
    wipeBytes c w' = Faulted.
Proof.
  destruct (createCanary_canary_is_read_only 4096 os_granting world_empty
              ltac:(lia) os_granting_cooperative)
    as (c & w' & Hrun & _ & _ & _ & Hfault).
  exists c, w'. split; [exact Hrun | exact Hfault].
Defined.
